(** * verify_footer.py: the footer verification script, embedded and verified

    The repository's one program is [jules-scratch/verification/verify_footer.py]:
    a straight-line Playwright script that opens [index.html] from the working
    directory in headless Chromium, walks through the "Férias" calculator and
    takes a screenshot of the results card.

    The script is embedded as a program over the calls it makes to its
    runtime (the Playwright client, the [os] module, the import system).  A
    call either returns a value or raises; a raise leaves the enclosing
    [with] block through its exit handler and propagates.  Part I gives the
    program and its execution against an arbitrary runtime, Part II a
    reference runtime (a small document model with Playwright's locator
    rules), Part III the vocabulary the properties are stated in, Part IV
    the properties and their proofs. *)

From Stdlib Require Import String Ascii List Bool Arith Lia.
From stdpp Require Import base strings gmap.
Import ListNotations.
Local Open Scope string_scope.
Local Open Scope list_scope.

(* ===================================================================== *)
(** * Part I.  The script                                                  *)
(* ===================================================================== *)

(** ** Handles and locators *)

(** Objects handed out by the runtime; the script only passes them on. *)
Inductive Playwright := PlaywrightRef (n : nat).
Inductive Browser := BrowserRef (n : nat).
Inductive Page := PageRef (n : nat).

(** A locator is a query description, built locally and resolved by the
    runtime each time it is used.  One constructor per way the script builds
    one: [page.locator(sel, has_text=...)], [page.get_by_role(role, name=...)],
    [l.first], [l.get_by_text(text, exact=...)]. *)
Inductive Locator :=
| locator (page : Page) (selector : string) (has_text : option string)
| get_by_role (page : Page) (role name : string)
| first (l : Locator)
| get_by_text (l : Locator) (text : string) (exact : bool).

(** The page a locator was built from. *)
Fixpoint locator_page (l : Locator) : Page :=
  match l with
  | locator pg _ _ => pg
  | get_by_role pg _ _ => pg
  | first l' => locator_page l'
  | get_by_text l' _ _ => locator_page l'
  end.

(** ** Calls into the runtime *)

(** Every operation with an effect outside the interpreter.  [sys_argv]
    and [os_environ_get] are the two ways a Python script can read its
    command line and its environment. *)
Inductive Call :=
| import_module (name : string)
| sync_playwright_enter
| sync_playwright_exit
| chromium_launch (p : Playwright) (headless : bool)
| new_page (b : Browser)
| os_getcwd
| sys_argv
| os_environ_get (key : string)
| goto (pg : Page) (url : string)
| expect_to_be_hidden (l : Locator)
| expect_to_be_visible (l : Locator)
| click (l : Locator)
| fill (l : Locator) (value : string)
| screenshot (l : Locator) (path : string)
| browser_close (b : Browser).

(** What a call returns when it does not raise. *)
Definition ret_type (c : Call) : Type :=
  match c with
  | sync_playwright_enter => Playwright
  | chromium_launch _ _ => Browser
  | new_page _ => Page
  | os_getcwd => string
  | sys_argv => list string
  | os_environ_get _ => option string
  | _ => unit
  end.

(** Exceptions.  Which one a failing call raises is up to the runtime. *)
Inductive Exn :=
| AssertionError (l : Locator) (expected : string)
| StrictModeViolation (l : Locator) (matches : nat)
| TimeoutError (l : Locator)
| PlaywrightError (msg : string)
| OSError (msg : string)
| ImportError (name : string).

Inductive Outcome (A : Type) :=
| Returned (a : A)
| Raised (e : Exn).
Arguments Returned {A} a.
Arguments Raised {A} e.

Definition returned {A} (o : Outcome A) : bool :=
  match o with Returned _ => true | Raised _ => false end.

(** ** Programs *)

(** Python statements over runtime calls: a value, a call, sequencing, and
    the [with] statement ([enter] on the way in, [exit] on every way out of
    the body). *)
Inductive Prog : Type -> Type :=
| Ret {A} (a : A) : Prog A
| Do (c : Call) : Prog (ret_type c)
| Bind {A B} (p : Prog A) (k : A -> Prog B) : Prog B
| With {A} (enter exit : Call) (body : ret_type enter -> Prog A) : Prog A.

Declare Scope prog_scope.
Delimit Scope prog_scope with prog.
Notation "x <- p ;; q" := (Bind p (fun x => q))
  (at level 100, p at next level, right associativity) : prog_scope.
Notation "p ;; q" := (Bind p (fun _ => q))
  (at level 100, right associativity) : prog_scope.
Notation "'with_' enter 'as' x 'exit_' exit 'do_' body" :=
  (With enter exit (fun x => body))
  (at level 100, x name, right associativity) : prog_scope.

(** ** os.path.join and the file URL *)

Definition ends_with_sep (s : string) : bool :=
  match rev (list_ascii_of_string s) with
  | c :: _ => Ascii.eqb c "/"
  | [] => false
  end.

Definition starts_with_sep (s : string) : bool :=
  match s with
  | String c _ => Ascii.eqb c "/"
  | EmptyString => false
  end.

(** [posixpath.join(a, b)]: an absolute [b] replaces [a]; otherwise [b] is
    appended, with a separator unless [a] is empty or already ends in one. *)
Definition os_path_join (a b : string) : string :=
  if starts_with_sep b then b
  else if (String.eqb a EmptyString || ends_with_sep a)%bool then a ++ b
  else a ++ "/" ++ b.

(** ** run_verification *)

Definition legal_notice_text : string :=
  "Valores aproximados para orientação, não substitui assessoria jurídica.".

(** The double-quote character of the attribute selector. *)
Definition dq : string := String (ascii_of_nat 34) EmptyString.

(** ['[data-action="calculate-now"][data-calc="ferias"]'] *)
Definition calculate_selector : string :=
  "[data-action=" ++ dq ++ "calculate-now" ++ dq ++ "]" ++
  "[data-calc=" ++ dq ++ "ferias" ++ dq ++ "]".

Definition screenshot_path : string :=
  "jules-scratch/verification/verification.png".

Section Script.
Local Open Scope prog_scope.

Definition run_verification : Prog unit :=
  with_ sync_playwright_enter as p exit_ sync_playwright_exit do_
    browser <- Do (chromium_launch p true) ;;
    page <- Do (new_page browser) ;;

    current_dir <- Do os_getcwd ;;
    let file_path := os_path_join current_dir "index.html" in
    Do (goto page ("file://" ++ file_path)) ;;

    let loading_placeholder := locator page ".animate-pulse" None in
    Do (expect_to_be_hidden (first loading_placeholder)) ;;

    let calculadoras_section := locator page "summary" (Some "Calculadoras") in
    Do (expect_to_be_visible calculadoras_section) ;;
    Do (click calculadoras_section) ;;

    let ferias_button := get_by_role page "button" "Férias" in
    Do (expect_to_be_visible ferias_button) ;;
    Do (click ferias_button) ;;

    let salario_input := locator page "#ferias-salarioBruto" None in
    Do (expect_to_be_visible salario_input) ;;
    Do (fill salario_input "5000.00") ;;

    let calculate_button :=
      locator page calculate_selector None in
    Do (expect_to_be_visible calculate_button) ;;
    Do (click calculate_button) ;;

    let results_container := locator page "#ferias-results" None in
    Do (expect_to_be_visible results_container) ;;

    let legal_notice_element :=
      get_by_text results_container legal_notice_text false in
    Do (expect_to_be_visible legal_notice_element) ;;

    Do (screenshot results_container screenshot_path) ;;

    Do (browser_close browser).

(** The module's top level: the three imports, the [def] (no effect), and
    the call under [if __name__ == "__main__":]. *)
Definition module_body (name__ : string) : Prog unit :=
  Do (import_module "asyncio") ;;
  Do (import_module "playwright.sync_api") ;;
  Do (import_module "os") ;;
  if String.eqb name__ "__main__" then run_verification else Ret tt.

End Script.

(** ** Execution against a runtime *)

(** A runtime answers each call in a world [W]: a value or an exception,
    and the world after.  The trace of an execution lists the calls in the
    order they were made, each with the world it was made in and its
    answer. *)
Definition Handler (W : Type) : Type :=
  forall c : Call, W -> (ret_type c + Exn) * W.

Record Event (W : Type) := mkEvent {
  ev_pre : W;
  ev_call : Call;
  ev_res : ret_type ev_call + Exn
}.
Arguments mkEvent {W} ev_pre ev_call ev_res.
Arguments ev_pre {W} e.
Arguments ev_call {W} e.
Arguments ev_res {W} e.

Definition ev_ok {W} (e : Event W) : bool :=
  match ev_res e with inl _ => true | inr _ => false end.

Definition ev_exn {W} (e : Event W) : option Exn :=
  match ev_res e with inl _ => None | inr x => Some x end.

Definition outcome_of {A} (r : A + Exn) : Outcome A :=
  match r with inl a => Returned a | inr e => Raised e end.

Section Exec.
Context {W : Type} (handle : Handler W).

(** [with] follows Python: if [__enter__] raises the body and [__exit__] are
    skipped; otherwise [__exit__] runs after the body whether it returned
    or raised.  The exit handlers used here return [None], so a pending
    exception propagates; an exception from [__exit__] itself replaces
    it. *)
Fixpoint exec {A} (p : Prog A) (w : W) : Outcome A * W * list (Event W) :=
  match p in Prog A return Outcome A * W * list (Event W) with
  | Ret a => (Returned a, w, [])
  | Do c =>
      let '(r, w') := handle c w in
      (outcome_of r, w', [mkEvent w c r])
  | Bind p k =>
      let '(r, w1, t1) := exec p w in
      match r with
      | Returned a =>
          let '(r2, w2, t2) := exec (k a) w1 in (r2, w2, t1 ++ t2)
      | Raised e => (Raised e, w1, t1)
      end
  | With enter exit body =>
      let '(r0, w0) := handle enter w in
      match r0 with
      | inr e => (Raised e, w0, [mkEvent w enter r0])
      | inl x =>
          let '(r1, w1, t1) := exec (body x) w0 in
          let '(r2, w2) := handle exit w1 in
          (match r2 with inr e' => Raised e' | inl _ => r1 end,
           w2,
           mkEvent w enter r0 :: t1 ++ [mkEvent w1 exit r2])
      end
  end.

Definition result_of {A} (x : Outcome A * W * list (Event W)) : Outcome A :=
  fst (fst x).
Definition world_of {A} (x : Outcome A * W * list (Event W)) : W :=
  snd (fst x).
Definition trace_of {A} (x : Outcome A * W * list (Event W)) : list (Event W) :=
  snd x.

End Exec.

(** ** Reading a trace *)

Definition calls {W} (tr : list (Event W)) : list Call := map ev_call tr.

(** The calls that returned, in order. *)
Definition calls_ok {W} (tr : list (Event W)) : list Call :=
  map ev_call (List.filter ev_ok tr).

Definition is_expect (c : Call) : bool :=
  match c with
  | expect_to_be_hidden _ | expect_to_be_visible _ => true
  | _ => false
  end.

Definition is_fill (c : Call) : bool :=
  match c with fill _ _ => true | _ => false end.

Definition is_screenshot (c : Call) : bool :=
  match c with screenshot _ _ => true | _ => false end.

Definition is_browser_close (c : Call) : bool :=
  match c with browser_close _ => true | _ => false end.

Definition is_import (c : Call) : bool :=
  match c with import_module _ => true | _ => false end.

(** Calls that read the command line or the environment. *)
Definition reads_invocation (c : Call) : bool :=
  match c with sys_argv | os_environ_get _ => true | _ => false end.

(** Calls that act on the page or assert on it. *)
Definition is_interaction (c : Call) : bool :=
  match c with
  | goto _ _ | expect_to_be_hidden _ | expect_to_be_visible _
  | click _ | fill _ _ | screenshot _ _ => true
  | _ => false
  end.

(** The locator a call works on. *)
Definition call_locator (c : Call) : option Locator :=
  match c with
  | expect_to_be_hidden l | expect_to_be_visible l
  | click l | fill l _ | screenshot l _ => Some l
  | _ => None
  end.

(** The page a call works on. *)
Definition call_page (c : Call) : option Page :=
  match c with
  | goto pg _ => Some pg
  | _ => option_map locator_page (call_locator c)
  end.

(** The working directories returned by [os.getcwd()] in a trace. *)
Definition ev_cwd {W} (e : Event W) : option string :=
  match ev_call e as c return ret_type c + Exn -> option string with
  | os_getcwd => fun r => match r with inl d => Some d | inr _ => None end
  | _ => fun _ => None
  end (ev_res e).

(** The pages returned by [browser.new_page()]. *)
Definition ev_new_page {W} (e : Event W) : option Page :=
  match ev_call e as c return ret_type c + Exn -> option Page with
  | new_page _ => fun r => match r with inl pg => Some pg | inr _ => None end
  | _ => fun _ => None
  end (ev_res e).

(** The browsers returned by [p.chromium.launch()]. *)
Definition ev_launched {W} (e : Event W) : option Browser :=
  match ev_call e as c return ret_type c + Exn -> option Browser with
  | chromium_launch _ _ => fun r => match r with inl b => Some b | inr _ => None end
  | _ => fun _ => None
  end (ev_res e).

Definition cwds {W} (tr : list (Event W)) : list string := omap ev_cwd tr.
Definition pages_opened {W} (tr : list (Event W)) : list Page := omap ev_new_page tr.
Definition browsers_launched {W} (tr : list (Event W)) : list Browser :=
  omap ev_launched tr.

(** The URLs navigated to. *)
Definition call_url (c : Call) : option string :=
  match c with goto _ url => Some url | _ => None end.
Definition navigations {W} (tr : list (Event W)) : list string :=
  omap call_url (calls tr).

(** The URL the script builds from a working directory. *)
Definition file_url (d : string) : string :=
  "file://" ++ os_path_join d "index.html".

(* ===================================================================== *)
(** * Part II.  A reference runtime                                        *)
(* ===================================================================== *)

(** The runtime below is the part of Playwright, of the file system and of
    the page under test that the script touches, reduced to what decides
    whether each call returns or raises.  Waiting is not modelled: a call
    sees the document as it is once the page has settled after the previous
    interaction, which is the state an auto-waiting call ends up judging.
    Of the actionability checks made before a click, fill or screenshot
    only the two the script's own assertions are about are kept: the
    locator denotes one element, and that element is visible. *)

(** ** Text matching *)

(** Text is compared by Unicode code point.  Strings hold UTF-8, which
    [code_points] decodes (a truncated sequence gives U+FFFD). *)
Fixpoint utf8_decode (bs : list N) : list N :=
  match bs with
  | [] => []
  | b0 :: r0 =>
      if (b0 <? 128)%N then b0 :: utf8_decode r0
      else if (192 <=? b0)%N && (b0 <? 224)%N then
        match r0 with
        | b1 :: r1 => ((b0 - 192) * 64 + (b1 - 128))%N :: utf8_decode r1
        | _ => [65533%N]
        end
      else if (224 <=? b0)%N && (b0 <? 240)%N then
        match r0 with
        | b1 :: b2 :: r2 =>
            ((b0 - 224) * 4096 + (b1 - 128) * 64 + (b2 - 128))%N :: utf8_decode r2
        | _ => [65533%N]
        end
      else if (240 <=? b0)%N && (b0 <? 248)%N then
        match r0 with
        | b1 :: b2 :: b3 :: r3 =>
            ((b0 - 240) * 262144 + (b1 - 128) * 4096 + (b2 - 128) * 64 + (b3 - 128))%N
              :: utf8_decode r3
        | _ => [65533%N]
        end
      else 65533%N :: utf8_decode r0
  end.

Definition code_points (s : string) : list N :=
  utf8_decode (map N_of_ascii (list_ascii_of_string s)).

(** White space as JavaScript's [\s] and [trim] have it: TAB, LF, VT, FF,
    CR, SPACE, NO-BREAK SPACE, U+1680, U+2000 to U+200A, U+2028, U+2029,
    U+202F, U+205F, U+3000 and U+FEFF. *)
Definition is_space (c : N) : bool :=
  existsb (N.eqb c)
    [9; 10; 11; 12; 13; 32; 160; 5760; 8232; 8233; 8239; 8287; 12288; 65279]%N
  || ((8192 <=? c)%N && (c <=? 8202)%N).

(** ZERO WIDTH SPACE and SOFT HYPHEN, which Playwright drops before it
    compares. *)
Definition is_ignorable (c : N) : bool :=
  N.eqb c 8203 || N.eqb c 173.

(** JavaScript's [toLowerCase] on one code point: the ASCII and Latin-1
    capitals, and the five code points beyond Latin-1 whose lower case has
    a Latin-1 character in it (U+0130, U+0178, U+1E9E, U+212A, U+212B).
    Other capitals are left as they are: their lower case lies beyond
    Latin-1 as they do, so this changes nothing for a text that is
    searched for and whose letters are Latin-1, as the script's three
    are. *)
Definition lower_code (c : N) : list N :=
  if (65 <=? c)%N && (c <=? 90)%N then [(c + 32)%N]
  else if (192 <=? c)%N && (c <=? 222)%N && negb (N.eqb c 215) then [(c + 32)%N]
  else if N.eqb c 304 then [105; 775]%N
  else if N.eqb c 376 then [255%N]
  else if N.eqb c 7838 then [223%N]
  else if N.eqb c 8490 then [107%N]
  else if N.eqb c 8491 then [229%N]
  else [c].

Definition fold_case (cs : list N) : list N := flat_map lower_code cs.

(** Runs of white space become one space; leading and trailing white space
    is dropped ([pending] is true when a space is owed before the next
    character). *)
Fixpoint squeeze (pending started : bool) (cs : list N) : list N :=
  match cs with
  | [] => []
  | c :: cs' =>
      if is_space c then squeeze started started cs'
      else (if pending then [32%N] else []) ++ c :: squeeze false true cs'
  end.

(** Playwright's [normalizeWhiteSpace]. *)
Definition normalize_white_space (s : string) : list N :=
  squeeze false false
    (List.filter (fun c => negb (is_ignorable c)) (code_points s)).

Fixpoint starts_with (p s : list N) : bool :=
  match p, s with
  | [], _ => true
  | _ :: _, [] => false
  | a :: p', b :: s' => N.eqb a b && starts_with p' s'
  end.

Fixpoint includes (p s : list N) : bool :=
  starts_with p s ||
  match s with
  | [] => false
  | _ :: s' => includes p s'
  end.

Fixpoint code_points_eqb (a b : list N) : bool :=
  match a, b with
  | [], [] => true
  | x :: a', y :: b' => N.eqb x y && code_points_eqb a' b'
  | _, _ => false
  end.

(** A text as the lax matcher compares it: white space normalised, then
    lower-cased. *)
Definition folded (s : string) : list N :=
  fold_case (normalize_white_space s).

(** Playwright's text match: white space normalised on both sides; without
    [exact], case-insensitive substring; with [exact], the whole string,
    case-sensitive. *)
Definition text_matches (exact : bool) (needle hay : string) : bool :=
  if exact then
    code_points_eqb (normalize_white_space needle) (normalize_white_space hay)
  else includes (folded needle) (folded hay).

(** ** Documents *)

(** An element as the locators see it.  [el_path] is its position in the
    document tree (child indices from the root); [el_text] is its text
    content, descendants included. *)
Record Element := mkElement {
  el_path : list nat;
  el_tag : string;
  el_id : string;
  el_classes : list string;
  el_attrs : list (string * string);
  el_role : string;
  el_name : string;
  el_text : string;
  el_value : string;
  el_visible : bool
}.

Definition set_visible (v : bool) (e : Element) : Element :=
  mkElement (el_path e) (el_tag e) (el_id e) (el_classes e) (el_attrs e)
            (el_role e) (el_name e) (el_text e) (el_value e) v.

Definition set_value (v : string) (e : Element) : Element :=
  mkElement (el_path e) (el_tag e) (el_id e) (el_classes e) (el_attrs e)
            (el_role e) (el_name e) (el_text e) v (el_visible e).

Fixpoint path_eqb (p q : list nat) : bool :=
  match p, q with
  | [], [] => true
  | a :: p', b :: q' => Nat.eqb a b && path_eqb p' q'
  | _, _ => false
  end.

(** [strictly_below p q]: [q] is a proper extension of [p]. *)
Fixpoint strictly_below (p q : list nat) : bool :=
  match p, q with
  | [], _ :: _ => true
  | a :: p', b :: q' => Nat.eqb a b && strictly_below p' q'
  | _, _ => false
  end.

(** [child_of p q]: [q] is [p] followed by one index. *)
Fixpoint child_of (p q : list nat) : bool :=
  match p, q with
  | [], [_] => true
  | a :: p', b :: q' => Nat.eqb a b && child_of p' q'
  | _, _ => false
  end.

(** [e] lies inside [root] (and is not [root]). *)
Definition inside (root e : Element) : bool :=
  strictly_below (el_path root) (el_path e).

(** [e] is [root] or lies inside it. *)
Definition within (root e : Element) : bool :=
  path_eqb (el_path root) (el_path e) || inside root e.

(** ** CSS selectors *)

(** Compound selectors of tag, class, id and quoted attribute tests, which
    covers the five the script uses.  Anything else does not parse. *)
Inductive Simple :=
| SelTag (t : string)
| SelClass (c : string)
| SelId (i : string)
| SelAttr (name value : string).

Inductive NameKind := KTag | KClass | KId.

Inductive Lex :=
| LStart
| LName (k : NameKind) (acc : string)
| LAttrName (acc : string)
| LAttrQuote (name : string)
| LAttrValue (name acc : string)
| LAttrClose (name value : string).

Definition is_ident_char (c : ascii) : bool :=
  let n := nat_of_ascii c in
  (Nat.leb 97 n && Nat.leb n 122) || (Nat.leb 65 n && Nat.leb n 90) ||
  (Nat.leb 48 n && Nat.leb n 57) || Nat.eqb n 45 || Nat.eqb n 95.

Definition snoc (s : string) (c : ascii) : string := s ++ String c EmptyString.

Definition mk_simple (k : NameKind) (s : string) : Simple :=
  match k with KTag => SelTag s | KClass => SelClass s | KId => SelId s end.

(** The state after reading [c] at the start of a simple selector. *)
Definition lex_start (c : ascii) : option Lex :=
  if Ascii.eqb c "." then Some (LName KClass EmptyString)
  else if Ascii.eqb c "#" then Some (LName KId EmptyString)
  else if Ascii.eqb c "[" then Some (LAttrName EmptyString)
  else if is_ident_char c then Some (LName KTag (String c EmptyString))
  else None.

Fixpoint css_lex (st : Lex) (out : list Simple) (cs : list ascii)
  : option (list Simple) :=
  match cs with
  | [] =>
      match st with
      | LStart => Some (rev out)
      | LName k acc =>
          if String.eqb acc EmptyString then None
          else Some (rev (mk_simple k acc :: out))
      | _ => None
      end
  | c :: cs' =>
      match st with
      | LStart =>
          match lex_start c with
          | Some st' => css_lex st' out cs'
          | None => None
          end
      | LName k acc =>
          if is_ident_char c then css_lex (LName k (snoc acc c)) out cs'
          else if String.eqb acc EmptyString then None
          else match lex_start c with
               | Some st' => css_lex st' (mk_simple k acc :: out) cs'
               | None => None
               end
      | LAttrName acc =>
          if is_ident_char c then css_lex (LAttrName (snoc acc c)) out cs'
          else if Ascii.eqb c "=" && negb (String.eqb acc EmptyString)
               then css_lex (LAttrQuote acc) out cs'
          else None
      | LAttrQuote name =>
          if Nat.eqb (nat_of_ascii c) 34 then css_lex (LAttrValue name EmptyString) out cs'
          else None
      | LAttrValue name acc =>
          if Nat.eqb (nat_of_ascii c) 34 then css_lex (LAttrClose name acc) out cs'
          else css_lex (LAttrValue name (snoc acc c)) out cs'
      | LAttrClose name value =>
          if Ascii.eqb c "]" then css_lex LStart (SelAttr name value :: out) cs'
          else None
      end
  end.

Definition css_parse (sel : string) : option (list Simple) :=
  match css_lex LStart [] (list_ascii_of_string sel) with
  | Some [] => None
  | r => r
  end.

Definition simple_matches (e : Element) (s : Simple) : bool :=
  match s with
  | SelTag t => String.eqb (el_tag e) t
  | SelClass c => existsb (String.eqb c) (el_classes e)
  | SelId i => String.eqb (el_id e) i
  | SelAttr n v =>
      existsb (fun nv => String.eqb (fst nv) n && String.eqb (snd nv) v) (el_attrs e)
  end.

Definition css_matches (ss : list Simple) (e : Element) : bool :=
  forallb (simple_matches e) ss.

(** ** Resolving a locator *)

(** [get_by_text] picks the innermost elements whose text matches: the
    element's text matches and no child element's does. *)
Definition text_hit (dom : list Element) (exact : bool) (text : string)
  (e : Element) : bool :=
  text_matches exact text (el_text e) &&
  negb (existsb (fun c => child_of (el_path e) (el_path c) &&
                          text_matches exact text (el_text c)) dom).

(** The elements of [dom], in document order, that a locator denotes;
    [None] when a selector does not parse.  [has_text] keeps elements whose
    text contains the string; [get_by_role] matches the role and, by
    substring, the accessible name of elements exposed to assistive
    technology (identified here with the visible ones); [first] keeps the
    first match; a chained [get_by_text] searches each match of its parent
    locator, the match itself included. *)
Fixpoint resolve (dom : list Element) (l : Locator) : option (list Element) :=
  match l with
  | locator _ sel has_text =>
      match css_parse sel with
      | None => None
      | Some ss =>
          Some (List.filter
                  (fun e => css_matches ss e &&
                            match has_text with
                            | None => true
                            | Some t => text_matches false t (el_text e)
                            end) dom)
      end
  | get_by_role _ role name =>
      Some (List.filter
              (fun e => String.eqb (el_role e) role &&
                        text_matches false name (el_name e) &&
                        el_visible e) dom)
  | first l' => option_map (firstn 1) (resolve dom l')
  | get_by_text l' text exact =>
      match resolve dom l' with
      | None => None
      | Some roots =>
          Some (List.filter
                  (fun e => existsb (fun r => within r e) roots &&
                            text_hit dom exact text e) dom)
      end
  end.

(** ** The world *)

(** What the page under test does when it is acted upon: a black box from
    the document before to the document after. *)
Inductive Action :=
| Clicked (e : Element)
| Filled (e : Element) (value : string).

Record Document := mkDocument {
  doc_dom : list Element;
  doc_react : Action -> list Element -> list Element
}.

(** A page that has not navigated anywhere. *)
Definition blank : Document := mkDocument [] (fun _ dom => dom).

(** A screenshot, by what it shows. *)
Record Image := mkImage {
  img_root : Element;
  img_shows : list Element
}.

Inductive File :=
| HtmlFile (d : Document)
| PngFile (i : Image)
| DataFile (content : string).

Record World := mkWorld {
  w_argv : list string;
  w_environ : list (string * string);
  w_cwd : string;
  w_files : gmap string File;
  w_chromium : bool;                      (* a Chromium build is installed *)
  w_running : bool;                       (* the Playwright driver is up *)
  w_next : nat;                           (* next fresh handle *)
  w_browsers : list nat;                  (* running browser processes *)
  w_pages : gmap nat (nat * Document)     (* open pages: browser, document *)
}.

Definition with_files (f : gmap string File) (w : World) : World :=
  mkWorld (w_argv w) (w_environ w) (w_cwd w) f (w_chromium w) (w_running w)
          (w_next w) (w_browsers w) (w_pages w).

Definition with_pages (p : gmap nat (nat * Document)) (w : World) : World :=
  mkWorld (w_argv w) (w_environ w) (w_cwd w) (w_files w) (w_chromium w)
          (w_running w) (w_next w) (w_browsers w) p.

Definition with_driver (running : bool) (next : nat) (bs : list nat)
  (p : gmap nat (nat * Document)) (w : World) : World :=
  mkWorld (w_argv w) (w_environ w) (w_cwd w) (w_files w) (w_chromium w)
          running next bs p.

Definition with_invocation (argv : list string) (env : list (string * string))
  (w : World) : World :=
  mkWorld argv env (w_cwd w) (w_files w) (w_chromium w) (w_running w)
          (w_next w) (w_browsers w) (w_pages w).

Definition environ_get (env : list (string * string)) (key : string) : option string :=
  option_map snd (List.find (fun kv => String.eqb (fst kv) key) env).

Fixpoint strip_prefix (p s : string) : option string :=
  match p, s with
  | EmptyString, _ => Some s
  | String a p', String b s' => if Ascii.eqb a b then strip_prefix p' s' else None
  | String _ _, EmptyString => None
  end.

(** ** Judging a locator *)

Inductive Target :=
| Unique (e : Element)
| NoMatch
| Many (n : nat)
| BadSelector
| NoPage.

Definition page_dom (w : World) (pg : Page) : option (list Element) :=
  match pg with
  | PageRef n => option_map (fun bd => doc_dom (snd bd)) (w_pages w !! n)
  end.

(** Strict resolution: the one element a locator denotes, or why not. *)
Definition target (w : World) (l : Locator) : Target :=
  match page_dom w (locator_page l) with
  | None => NoPage
  | Some dom =>
      match resolve dom l with
      | None => BadSelector
      | Some [] => NoMatch
      | Some [e] => Unique e
      | Some es => Many (length es)
      end
  end.

Definition target_error (l : Locator) (t : Target) : Exn :=
  match t with
  | Many n => StrictModeViolation l n
  | BadSelector => PlaywrightError "Unexpected token while parsing selector"
  | NoPage => PlaywrightError "Target page, context or browser has been closed"
  | _ => TimeoutError l
  end.

(** [expect(l).to_be_visible()]: [None] when it holds. *)
Definition check_visible (w : World) (l : Locator) : option Exn :=
  match target w l with
  | Unique e => if el_visible e then None else Some (AssertionError l "visible")
  | NoMatch => Some (AssertionError l "visible")
  | t => Some (target_error l t)
  end.

(** [expect(l).to_be_hidden()]: holds for no match and for a match that is
    not visible. *)
Definition check_hidden (w : World) (l : Locator) : option Exn :=
  match target w l with
  | Unique e => if el_visible e then Some (AssertionError l "hidden") else None
  | NoMatch => None
  | t => Some (target_error l t)
  end.

(** The element an action lands on: unique and visible. *)
Definition actionable (w : World) (l : Locator) : Element + Exn :=
  match target w l with
  | Unique e => if el_visible e then inl e else inr (TimeoutError l)
  | t => inr (target_error l t)
  end.

Definition answer (o : option Exn) : unit + Exn :=
  match o with None => inl tt | Some e => inr e end.

(** Replace the document of the page a locator belongs to. *)
Definition set_dom (l : Locator) (f : Document -> list Element) (w : World) : World :=
  match locator_page l with
  | PageRef n =>
      match w_pages w !! n with
      | Some (b, d) =>
          with_pages (<[n := (b, mkDocument (f d) (doc_react d))]> (w_pages w)) w
      | None => w
      end
  end.

Definition write_value (e : Element) (v : string) (dom : list Element) : list Element :=
  map (fun x => if path_eqb (el_path x) (el_path e) then set_value v x else x) dom.

Definition capture (e : Element) (dom : list Element) : Image :=
  mkImage e (List.filter (fun x => el_visible x && inside e x) dom).

Definition dom_of (l : Locator) (w : World) : list Element :=
  default [] (page_dom w (locator_page l)).

(** ** The handler *)

(** What each call does to the world.  Imports and the reads of the
    process state change nothing.  Entering the Playwright context starts
    the driver; leaving it stops the driver, and a stopping driver closes
    the browsers it launched.  [goto] loads the file a [file://] URL names.
    Assertions judge the page and leave it alone; a click or fill that
    lands hands the page over to the document's own reaction; a screenshot
    that lands writes its image at the path, taken relative to the working
    directory, replacing what was there. *)
Definition runtime (c : Call) (w : World) : (ret_type c + Exn) * World :=
  match c return (ret_type c + Exn) * World with
  | import_module _ => (inl tt, w)
  | sync_playwright_enter =>
      (inl (PlaywrightRef (w_next w)),
       with_driver true (S (w_next w)) (w_browsers w) (w_pages w) w)
  | sync_playwright_exit =>
      (inl tt, with_driver false (w_next w) [] ∅ w)
  | chromium_launch _ _ =>
      if negb (w_running w) then
        (inr (PlaywrightError "Connection closed"), w)
      else if negb (w_chromium w) then
        (inr (PlaywrightError "Executable doesn't exist"), w)
      else
        (inl (BrowserRef (w_next w)),
         with_driver true (S (w_next w)) (w_next w :: w_browsers w) (w_pages w) w)
  | new_page (BrowserRef b) =>
      if existsb (Nat.eqb b) (w_browsers w) then
        (inl (PageRef (w_next w)),
         with_driver (w_running w) (S (w_next w)) (w_browsers w)
                     (<[w_next w := (b, blank)]> (w_pages w)) w)
      else (inr (PlaywrightError "Target page, context or browser has been closed"), w)
  | os_getcwd => (inl (w_cwd w), w)
  | sys_argv => (inl (w_argv w), w)
  | os_environ_get key => (inl (environ_get (w_environ w) key), w)
  | goto (PageRef n) url =>
      match w_pages w !! n with
      | None => (inr (PlaywrightError "Target page, context or browser has been closed"), w)
      | Some (b, _) =>
          match strip_prefix "file://" url with
          | None => (inr (PlaywrightError "net::ERR_NAME_NOT_RESOLVED"), w)
          | Some path =>
              match w_files w !! path with
              | None => (inr (PlaywrightError "net::ERR_FILE_NOT_FOUND"), w)
              | Some (HtmlFile d) => (inl tt, with_pages (<[n := (b, d)]> (w_pages w)) w)
              | Some _ => (inl tt, with_pages (<[n := (b, blank)]> (w_pages w)) w)
              end
          end
      end
  | expect_to_be_hidden l => (answer (check_hidden w l), w)
  | expect_to_be_visible l => (answer (check_visible w l), w)
  | click l =>
      match actionable w l with
      | inl e => (inl tt, set_dom l (fun d => doc_react d (Clicked e) (doc_dom d)) w)
      | inr x => (inr x, w)
      end
  | fill l v =>
      match actionable w l with
      | inl e =>
          (inl tt,
           set_dom l (fun d => doc_react d (Filled (set_value v e) v)
                                 (write_value e v (doc_dom d))) w)
      | inr x => (inr x, w)
      end
  | screenshot l path =>
      match actionable w l with
      | inl e =>
          (inl tt,
           with_files (<[os_path_join (w_cwd w) path := PngFile (capture e (dom_of l w))]>
                         (w_files w)) w)
      | inr x => (inr x, w)
      end
  | browser_close (BrowserRef b) =>
      (inl tt,
       with_driver (w_running w) (w_next w)
                   (List.filter (fun x => negb (Nat.eqb x b)) (w_browsers w))
                   (filter (fun kv => fst (snd kv) <> b) (w_pages w)) w)
  end.

(** ** A page to run against *)

(** A miniature of the calculator page after its sidebar has loaded: a
    collapsed "Calculadoras" section, the "Férias" entry inside it, the form
    and the results card, the last three hidden until the page reveals
    them. *)
Definition el (path : list nat) (tag id : string) (classes : list string)
  (attrs : list (string * string)) (role name text : string) (visible : bool)
  : Element :=
  mkElement path tag id classes attrs role name text EmptyString visible.

Definition none : string := EmptyString.

Definition summary_el : Element :=
  el [0; 0; 0] "summary" none ["cursor-pointer"] [] none "Calculadoras"
     "Calculadoras" true.

Definition ferias_el : Element :=
  el [0; 0; 1] "button" none ["nav-link"] [("data-calc", "ferias")]
     "button" "Férias" "Férias" false.

Definition salario_el : Element :=
  el [1; 0] "input" "ferias-salarioBruto" [] [("type", "text")]
     "textbox" "Salário Bruto" none false.

Definition calculate_el : Element :=
  el [1; 1] "button" none ["btn"]
     [("data-action", "calculate-now"); ("data-calc", "ferias")]
     "button" "Calcular" "Calcular" false.

Definition results_text : string := "Férias líquidas: R$ 6.016,57".

Definition results_el : Element :=
  el [1; 2] "div" "ferias-results" ["card"] [] none none
     (results_text ++ " " ++ legal_notice_text) false.

Definition amount_el : Element :=
  el [1; 2; 0] "p" none [] [] none none results_text false.

Definition notice_el (text : string) : Element :=
  el [1; 2; 1] "p" none ["legal-notice"] [] none none text false.

Definition has_attr (n v : string) (e : Element) : bool :=
  simple_matches e (SelAttr n v).

Definition reveal (P : Element -> bool) (dom : list Element) : list Element :=
  map (fun x => if P x then set_visible true x else x) dom.

(** The page's behaviour: the summary opens the section, the "Férias" entry
    shows the form, the calculate button shows the results card once a
    salary has been entered. *)
Definition calculator (a : Action) (dom : list Element) : list Element :=
  match a with
  | Clicked e =>
      if String.eqb (el_tag e) "summary" then
        reveal (fun x => child_of [0; 0] (el_path x)) dom
      else if String.eqb (el_name e) "Férias" then
        reveal (fun x => child_of [1] (el_path x) &&
                         negb (String.eqb (el_id x) "ferias-results")) dom
      else if has_attr "data-action" "calculate-now" e then
        if existsb (fun x => String.eqb (el_id x) "ferias-salarioBruto" &&
                             negb (String.eqb (el_value x) EmptyString)) dom
        then reveal (fun x => path_eqb [1; 2] (el_path x) ||
                              strictly_below [1; 2] (el_path x)) dom
        else dom
      else dom
  | Filled _ _ => dom
  end.

Definition page_dom0 : list Element :=
  [summary_el; ferias_el; salario_el; calculate_el; results_el; amount_el;
   notice_el legal_notice_text].

Definition index_html (dom : list Element) : File :=
  HtmlFile (mkDocument dom calculator).

Definition world_with (files : list (string * File)) : World :=
  mkWorld ["verify_footer.py"] [("HOME", "/home/dev")] "/home/dev/app"
          (list_to_map files) true false 0 [] ∅.

(** The page as it should be. *)
Definition good_world : World :=
  world_with [("/home/dev/app/index.html", index_html page_dom0)].

(* ===================================================================== *)
(** * Part III.  Vocabulary of the properties                              *)
(* ===================================================================== *)

(** The script's locators, by the names the source gives them. *)
Definition ferias_button (pg : Page) : Locator := get_by_role pg "button" "Férias".
Definition salario_input (pg : Page) : Locator :=
  locator pg "#ferias-salarioBruto" None.
Definition calculate_button (pg : Page) : Locator :=
  locator pg calculate_selector None.
Definition results_container (pg : Page) : Locator :=
  locator pg "#ferias-results" None.
Definition legal_notice_element (pg : Page) : Locator :=
  get_by_text (results_container pg) legal_notice_text false.

(** An element with the given role whose accessible name matches. *)
Definition has_role_name (role name : string) (x : Element) : bool :=
  String.eqb (el_role x) role && text_matches false name (el_name x).

(** The page with the "Férias" entry missing from the sidebar. *)
Definition no_ferias_world : World :=
  world_with [("/home/dev/app/index.html",
               index_html [summary_el; salario_el; calculate_el; results_el;
                           amount_el; notice_el legal_notice_text])].

(** The assertions of the script, in source order (lines 17, 21, 26, 31,
    36, 41 and 46). *)
Definition script_assertions (pg : Page) : list Call :=
  [ expect_to_be_hidden (first (locator pg ".animate-pulse" None));
    expect_to_be_visible (locator pg "summary" (Some "Calculadoras"));
    expect_to_be_visible (ferias_button pg);
    expect_to_be_visible (salario_input pg);
    expect_to_be_visible (calculate_button pg);
    expect_to_be_visible (results_container pg);
    expect_to_be_visible (legal_notice_element pg) ].

(** ** What lets a call through *)

(** The locator denotes exactly one element, and it is visible. *)
Definition unique_visible (w : World) (l : Locator) : Prop :=
  exists x, target w l = Unique x /\ el_visible x = true.

(** The locator denotes nothing, or one element that is not visible. *)
Definition hidden_or_absent (w : World) (l : Locator) : Prop :=
  target w l = NoMatch \/ exists x, target w l = Unique x /\ el_visible x = false.

(** The condition on the page under which a call on a locator returns. *)
Definition precondition (w : World) (c : Call) : Prop :=
  match c with
  | expect_to_be_hidden l => hidden_or_absent w l
  | expect_to_be_visible l | click l | fill l _ | screenshot l _ =>
      unique_visible w l
  | _ => True
  end.

(** A world in which a page (handle 1, of browser 0) already shows [dom]. *)
Definition showing (dom : list Element) : World :=
  mkWorld ["verify_footer.py"] [] "/home/dev/app" ∅ true true 2 [0]
          {[ 1 := (0, mkDocument dom calculator) ]}.

(** The page after the calculation: everything revealed. *)
Definition page_dom_done : list Element := reveal (fun _ => true) page_dom0.

(** ** The disclaimer *)

Definition is_results_container (x : Element) : bool :=
  String.eqb (el_id x) "ferias-results".

(** [e] is an element with id "ferias-results" or lies inside one. *)
Definition in_results (dom : list Element) (e : Element) : bool :=
  existsb (fun r => is_results_container r && within r e) dom.

(** [e] is an innermost element of the results container (the container
    or an element inside it) whose text contains the disclaimer, letter
    case and runs of white space aside. *)
Definition carries_notice (dom : list Element) (e : Element) : bool :=
  in_results dom e && text_hit dom false legal_notice_text e.

(** The text literally contains the disclaimer. *)
Definition quotes_notice (e : Element) : bool :=
  includes (code_points legal_notice_text) (code_points (el_text e)).

(** The results card is shown but the page keeps its disclaimer hidden. *)
Definition page_dom_notice_hidden : list Element :=
  map (fun x => if path_eqb (el_path x) [1; 2; 1] then set_visible false x else x)
      page_dom_done.

(** The disclaimer sits outside the results card. *)
Definition page_dom_notice_outside : list Element :=
  reveal (fun _ => true)
    [summary_el; ferias_el; salario_el; calculate_el;
     el [1; 2] "div" "ferias-results" ["card"] [] none none results_text false;
     amount_el;
     el [2] "footer" none [] [] none none legal_notice_text false].

(** A disclaimer in other words. *)
Definition page_dom_reworded : list Element :=
  reveal (fun _ => true)
    [summary_el; ferias_el; salario_el; calculate_el;
     el [1; 2] "div" "ferias-results" ["card"] [] none none
        (results_text ++ " Valores estimados, sem valor legal.") false;
     amount_el;
     notice_el "Valores estimados, sem valor legal."].

(** The page is there but [index.html] is not. *)
Definition no_index_world : World := world_with [].

(** ** Files *)

(** The file a call writes when made in world [w]: only a screenshot that
    lands writes one, at its path taken relative to the working
    directory. *)
Definition write_of (c : Call) (w : World) : option (string * File) :=
  match c with
  | screenshot l path =>
      match actionable w l with
      | inl x => Some (os_path_join (w_cwd w) path, PngFile (capture x (dom_of l w)))
      | inr _ => None
      end
  | _ => None
  end.

Definition file_writes (tr : list (Event World)) : list (string * File) :=
  omap (fun e => write_of (ev_call e) (ev_pre e)) tr.

Definition store (fs : gmap string File) (kv : string * File) : gmap string File :=
  <[fst kv := snd kv]> fs.

(** The good page, with an older screenshot already in place. *)
Definition rerun_world : World :=
  world_with [("/home/dev/app/index.html", index_html page_dom0);
              ("/home/dev/app/jules-scratch/verification/verification.png",
               PngFile (mkImage results_el []))].

(** ** Invocation *)

(** The imports at the top of the module, in source order. *)
Definition module_imports : list Call :=
  [import_module "asyncio"; import_module "playwright.sync_api"; import_module "os"].

(** [w2] is [w1] started with another command line and environment. *)
Definition same_but_invocation (w1 w2 : World) : Prop :=
  w2 = with_invocation (w_argv w2) (w_environ w2) w1.

(** A handler answers alike in worlds related by [R], for every call that
    does not read the command line or the environment. *)
Definition respects {W} (h : Handler W) (R : W -> W -> Prop) : Prop :=
  forall c w1 w2, reads_invocation c = false -> R w1 w2 ->
    fst (h c w1) = fst (h c w2) /\ R (snd (h c w1)) (snd (h c w2)).

(** ** Trace predicates *)

(** After the first call that raised, only [cleanup] calls follow. *)
Fixpoint fail_fast {W} (cleanup : Call -> bool) (tr : list (Event W)) : bool :=
  match tr with
  | [] => true
  | e :: t =>
      if ev_ok e then fail_fast cleanup t
      else forallb (fun e' => cleanup (ev_call e')) t
  end.

(** Every [with] in the program exits through a [cleanup] call. *)
Fixpoint exits_through (cleanup : Call -> bool) {A} (p : Prog A) : Prop :=
  match p with
  | Ret _ => True
  | Do _ => True
  | Bind p k => exits_through cleanup p /\ forall a, exits_through cleanup (k a)
  | With _ exit body =>
      cleanup exit = true /\ forall x, exits_through cleanup (body x)
  end.

(** The program makes no call that reads the command line or the
    environment. *)
Fixpoint ignores_invocation {A} (p : Prog A) : Prop :=
  match p with
  | Ret _ => True
  | Do c => reads_invocation c = false
  | Bind p k => ignores_invocation p /\ forall a, ignores_invocation (k a)
  | With enter exit body =>
      reads_invocation enter = false /\ reads_invocation exit = false /\
      forall x, ignores_invocation (body x)
  end.

Definition is_exit (c : Call) : bool :=
  match c with sync_playwright_exit => true | _ => false end.

(** The exceptions raised along a trace, in order. *)
Definition raised_in {W} (tr : list (Event W)) : list Exn := omap ev_exn tr.

(** A trace is a chain when each event was answered by the handler in the
    world its predecessor left. *)
Fixpoint chain {W} (h : Handler W) (w : W) (tr : list (Event W)) (w' : W) : Prop :=
  match tr with
  | [] => w' = w
  | e :: t =>
      ev_pre e = w /\
      ev_res e = fst (h (ev_call e) w) /\
      chain h (snd (h (ev_call e) w)) t w'
  end.

(** What an observer of the run sees: each call with its answer. *)
Definition observation {W} (e : Event W) : { c : Call & (ret_type c + Exn)%type } :=
  existT (ev_call e) (ev_res e).
Definition observations {W} (tr : list (Event W)) := map observation tr.

(** ** The script as a sequence *)

Definition calculadoras_section (pg : Page) : Locator :=
  locator pg "summary" (Some "Calculadoras").
Definition loading_placeholder (pg : Page) : Locator :=
  locator pg ".animate-pulse" None.

(** The calls of [run_verification] in source order, the exit handler
    aside, for given answers of [sync_playwright()], [launch], [new_page]
    and [os.getcwd()]. *)
Definition script_calls (p : Playwright) (b : Browser) (pg : Page) (d : string)
  : list Call :=
  [ sync_playwright_enter;
    chromium_launch p true;
    new_page b;
    os_getcwd;
    goto pg (file_url d);
    expect_to_be_hidden (first (loading_placeholder pg));
    expect_to_be_visible (calculadoras_section pg);
    click (calculadoras_section pg);
    expect_to_be_visible (ferias_button pg);
    click (ferias_button pg);
    expect_to_be_visible (salario_input pg);
    fill (salario_input pg) "5000.00";
    expect_to_be_visible (calculate_button pg);
    click (calculate_button pg);
    expect_to_be_visible (results_container pg);
    expect_to_be_visible (legal_notice_element pg);
    screenshot (results_container pg) screenshot_path;
    browser_close b ].

(** The Playwright objects returned by [sync_playwright().__enter__()]. *)
Definition ev_entered {W} (e : Event W) : option Playwright :=
  match ev_call e as c return ret_type c + Exn -> option Playwright with
  | sync_playwright_enter => fun r => match r with inl p => Some p | inr _ => None end
  | _ => fun _ => None
  end (ev_res e).
Definition entered {W} (tr : list (Event W)) : list Playwright := omap ev_entered tr.

(** The script of a trace: [script_calls] at the values the trace's own
    calls returned (placeholders where a call did not return; the prefix
    the trace covers does not reach them). *)
Definition script_of {W} (tr : list (Event W)) : list Call :=
  script_calls (hd (PlaywrightRef 0) (entered tr))
               (hd (BrowserRef 0) (browsers_launched tr))
               (hd (PageRef 0) (pages_opened tr))
               (hd EmptyString (cwds tr)).

(** Calls that act on the page or capture it. *)
Definition is_action (c : Call) : bool :=
  match c with click _ | fill _ _ | screenshot _ _ => true | _ => false end.

(** The reference runtime on a machine where one module cannot be
    imported. *)
Definition runtime_without (missing : string) : Handler World :=
  fun c =>
    match c as c0 return World -> (ret_type c0 + Exn) * World with
    | import_module m =>
        fun w => if String.eqb m missing then (inr (ImportError m), w) else (inl tt, w)
    | c0 => runtime c0
    end.

(** ** Pages for the disclaimer assertion *)

(** [e] lies inside an element with id "ferias-results" and is not that
    element. *)
Definition inside_results (dom : list Element) (e : Element) : bool :=
  existsb (fun r => is_results_container r && inside r e) dom.

(** The disclaimer occurs in [t], compared the way the lax matcher
    compares: white space normalised and letters lower-cased on both
    sides. *)
Definition contains_notice (t : string) : Prop :=
  exists a b, folded t = a ++ folded legal_notice_text ++ b.

Definition nbsp : string :=
  String (ascii_of_nat 194) (String (ascii_of_nat 160) EmptyString).
Definition newline : string := String (ascii_of_nat 10) EmptyString.

(** The disclaimer in capitals, and with a no-break space, a doubled space
    and a line break between its words. *)
Definition notice_in_capitals : string :=
  "VALORES APROXIMADOS PARA ORIENTAÇÃO, NÃO SUBSTITUI ASSESSORIA JURÍDICA.".
Definition notice_respaced : string :=
  "Valores" ++ nbsp ++ "aproximados  para" ++ newline ++
  "orientação, não substitui assessoria jurídica.".

(** The page after the calculation with a results card of the given text
    and inner elements. *)
Definition page_done_with (card_text : string) (inner : list Element)
  : list Element :=
  reveal (fun _ => true)
    ([summary_el; ferias_el; salario_el; calculate_el;
      el [1; 2] "div" "ferias-results" ["card"] [] none none card_text false]
     ++ inner).

(** The disclaimer twice in the card. *)
Definition page_dom_notice_twice : list Element :=
  page_done_with (legal_notice_text ++ " " ++ legal_notice_text)
    [notice_el legal_notice_text;
     el [1; 2; 2] "p" none ["legal-notice"] [] none none legal_notice_text false].

Definition page_dom_notice_capitals : list Element :=
  page_done_with notice_in_capitals [notice_el notice_in_capitals].

Definition page_dom_notice_respaced : list Element :=
  page_done_with notice_respaced [notice_el notice_respaced].

(** The disclaimer is the card's own text, with no element around it. *)
Definition page_dom_notice_bare : list Element :=
  page_done_with legal_notice_text [].

(** The disclaimer's paragraph sits in a wrapper inside the card. *)
Definition page_dom_notice_wrapped : list Element :=
  page_done_with legal_notice_text
    [el [1; 2; 0] "div" none ["footer"] [] none none legal_notice_text false;
     el [1; 2; 0; 0] "p" none ["legal-notice"] [] none none legal_notice_text false].

(** ** The module search path *)

Fixpoint split_on (sep : ascii) (s : string) : list string :=
  match s with
  | EmptyString => [EmptyString]
  | String c s' =>
      if Ascii.eqb c sep then EmptyString :: split_on sep s'
      else match split_on sep s' with
           | [] => [String c EmptyString]
           | x :: xs => String c x :: xs
           end
  end.

(** The first component of a dotted module name. *)
Definition top_level (m : string) : string := hd m (split_on "." m).

Definition is_submodule (m : string) : bool := negb (String.eqb (top_level m) m).

(** The directories the environment variable PYTHONPATH puts on the
    interpreter's module search path, ahead of the installed packages. *)
Definition search_path (w : World) : list string :=
  match environ_get (w_environ w) "PYTHONPATH" with
  | Some p => List.filter (fun d => negb (String.eqb d EmptyString)) (split_on ":" p)
  | None => []
  end.

Definition is_file (w : World) (path : string) : bool :=
  match w_files w !! path with Some _ => true | None => false end.

(** A directory of the search path holds a plain module named like the
    package of [m]: the interpreter finds that module first, and it has no
    submodules. *)
Definition shadowed (w : World) (m : string) : bool :=
  is_submodule m &&
  existsb (fun d => is_file w (os_path_join d (top_level m ++ ".py"))) (search_path w).

(** The reference runtime with the interpreter's module search modelled:
    importing a submodule raises when its package is shadowed on the
    search path.  [runtime] is this runtime on a machine where nothing on
    the search path shadows a package. *)
Definition runtime_on_path : Handler World :=
  fun c =>
    match c as c0 return World -> (ret_type c0 + Exn) * World with
    | import_module m =>
        fun w => if shadowed w m then (inr (ImportError m), w) else (inl tt, w)
    | c0 => runtime c0
    end.

(** The good page on a machine with a scratch file /tmp/shadow/playwright.py. *)
Definition shadow_world : World :=
  world_with [("/home/dev/app/index.html", index_html page_dom0);
              ("/tmp/shadow/playwright.py", DataFile "print(1)")].

(** [w2] is [w1] started with another command line and environment that
    names the same search path. *)
Definition same_search_path (w1 w2 : World) : Prop :=
  same_but_invocation w1 w2 /\ search_path w1 = search_path w2.

(* ===================================================================== *)
(** * Part IV.  Proofs                                                     *)
(* ===================================================================== *)

(** ** General facts about execution *)

Section ExecFacts.
Context {W : Type} (h : Handler W).

Lemma chain_app w1 t1 w2 t2 w3 :
  chain h w1 t1 w2 -> chain h w2 t2 w3 -> chain h w1 (t1 ++ t2) w3.
Proof.
  revert w1. induction t1 as [|e t1 IH]; simpl; intros w1.
  - intros ->. auto.
  - intros (He & Hr & Ht) H2. repeat split; eauto.
Qed.

Lemma exec_chain {A} (p : Prog A) (w : W) :
  chain h w (trace_of (exec h p w)) (world_of (exec h p w)).
Proof.
  revert w. induction p as [A a | c | A B p IHp k IHk | A enter exit body IH];
    intros w; simpl.
  - reflexivity.
  - destruct (h c w) as [r w'] eqn:E. cbn. rewrite E. cbn. auto.
  - specialize (IHp w). destruct (exec h p w) as [[r w1] t1]. cbn in IHp.
    destruct r as [a | e]; cbn; auto.
    specialize (IHk a w1). destruct (exec h (k a) w1) as [[r2 w2] t2]. cbn in *.
    eapply chain_app; eauto.
  - destruct (h enter w) as [r0 w0] eqn:E0.
    destruct r0 as [x | e]; cbn.
    + specialize (IH x w0). destruct (exec h (body x) w0) as [[r1 w1] t1].
      destruct (h exit w1) as [r2 w2] eqn:E2. cbn in *.
      rewrite E0. cbn. split; [reflexivity|]. split; [reflexivity|].
      eapply chain_app; eauto. cbn. rewrite E2. cbn. auto.
    + rewrite E0. cbn. auto.
Qed.

Lemma fail_fast_all_ok cleanup (t1 t2 : list (Event W)) :
  forallb ev_ok t1 = true ->
  fail_fast cleanup (t1 ++ t2) = fail_fast cleanup t2.
Proof.
  induction t1 as [|e t1 IH]; simpl; auto.
  intros H. apply andb_prop in H as [-> H]. auto.
Qed.

Lemma fail_fast_snoc cleanup (t : list (Event W)) e :
  fail_fast cleanup t = true -> cleanup (ev_call e) = true ->
  fail_fast cleanup (t ++ [e]) = true.
Proof.
  induction t as [|e0 t IH]; simpl; intros H He.
  - destruct (ev_ok e); auto.
  - destruct (ev_ok e0); auto.
    rewrite forallb_app, H. simpl. rewrite He. reflexivity.
Qed.

Lemma raised_in_nil_ok (t : list (Event W)) :
  raised_in t = [] -> forallb ev_ok t = true.
Proof.
  unfold raised_in. induction t as [|e t IH]; simpl; auto.
  unfold ev_exn, ev_ok at 1. destruct (ev_res e); simpl; auto. discriminate.
Qed.

(** The outcome of a run and its trace agree: a run returns exactly when
    no call raised, and a run that raises propagates the last exception
    raised; after the first call that raised only exit handlers run. *)
Lemma exec_fail_fast cleanup {A} (p : Prog A) (w : W) :
  exits_through cleanup p ->
  fail_fast cleanup (trace_of (exec h p w)) = true /\
  match result_of (exec h p w) with
  | Returned _ => raised_in (trace_of (exec h p w)) = []
  | Raised x => last (raised_in (trace_of (exec h p w))) = Some x
  end.
Proof.
  revert w. induction p as [A a | c | A B p IHp k IHk | A enter exit body IH];
    intros w Hp; simpl in Hp.
  - cbn. auto.
  - cbn. destruct (h c w) as [[r | e] w'] eqn:E; cbn; auto.
  - destruct Hp as [Hp Hk]. specialize (IHp w Hp). cbn.
    destruct (exec h p w) as [[r w1] t1]. cbn in IHp.
    destruct r as [a | e]; cbn; auto.
    destruct IHp as [F1 R1].
    specialize (IHk a w1 (Hk a)).
    destruct (exec h (k a) w1) as [[r2 w2] t2]. cbn in *.
    rewrite fail_fast_all_ok by (apply raised_in_nil_ok; auto).
    rewrite omap_app, R1. simpl. auto.
  - destruct Hp as [Hx Hb]. cbn.
    destruct (h enter w) as [[x | e] w0] eqn:E0; cbn; auto.
    specialize (IH x w0 (Hb x)).
    destruct (exec h (body x) w0) as [[r1 w1] t1]. cbn in IH.
    destruct IH as [F1 R1].
    destruct (h exit w1) as [r2 w2] eqn:E2. cbn.
    split.
    + apply fail_fast_snoc; auto.
    + unfold raised_in in *. cbn. rewrite omap_app.
      destruct r2 as [u | e']; cbn.
      * rewrite app_nil_r. exact R1.
      * rewrite last_snoc. reflexivity.
Qed.

Lemma fail_fast_lookup cleanup (tr : list (Event W)) i e :
  fail_fast cleanup tr = true ->
  tr !! i = Some e -> ev_ok e = false ->
  forallb (fun e' => cleanup (ev_call e')) (drop (S i) tr) = true.
Proof.
  revert i. induction tr as [|e0 tr IH]; intros i F L K; [discriminate|].
  simpl in F. destruct i as [|i]; simpl in L.
  - injection L as ->. rewrite K in F. exact F.
  - simpl. destruct (ev_ok e0) eqn:K0.
    + eauto.
    + clear IH. revert i L. induction tr as [|e1 tr IH]; intros i L; [discriminate|].
      simpl in F. apply andb_prop in F as [F1 F2].
      destruct i as [|i]; simpl in *; eauto.
Qed.

End ExecFacts.

(** ** Symbolic execution of the script *)

Ltac run_step h :=
  match goal with
  | |- context [h ?c ?w] =>
      let r := fresh "r" in
      let w' := fresh "w" in
      let E := fresh "E" in
      destruct (h c w) as [[r | r] w'] eqn:E;
      cbn -[os_path_join String.append file_url]
  end.

Ltac run_script h :=
  unfold module_body, run_verification;
  cbn -[os_path_join String.append file_url];
  repeat run_step h.

(** Find the event at a given index of an explicit trace. *)
Ltac pick_event L :=
  repeat match type of L with
         | (_ :: _) !! ?i = Some _ =>
             destruct i; cbn -[os_path_join String.append file_url] in L
         | Some _ = Some _ => injection L as L
         | [] !! _ = Some _ => discriminate L
         | None = Some _ => discriminate L
         end.

Section ScriptFacts.
Context {W : Type} (h : Handler W).

Lemma run_exits_through : exits_through is_exit run_verification.
Proof. unfold run_verification. simpl. repeat split; auto. Qed.

Lemma ferias_failure_stops (w : W) i e pg :
  let tr := trace_of (exec h run_verification w) in
  tr !! i = Some e ->
  ev_call e = expect_to_be_visible (ferias_button pg) ->
  ev_ok e = false ->
  calls (drop (S i) tr) = [sync_playwright_exit] /\
  existsb is_fill (calls tr) = false.
Proof.
  intros tr L C K; subst tr. revert L.
  run_script h; intros L; pick_event L; subst e;
    try discriminate C; try discriminate K; split; reflexivity.
Qed.

Lemma fill_after_ferias (w : W) :
  let tr := trace_of (exec h run_verification w) in
  existsb is_fill (calls tr) = true ->
  exists pg e, tr !! 8 = Some e /\
    ev_call e = expect_to_be_visible (ferias_button pg) /\ ev_ok e = true.
Proof.
  intros tr; subst tr.
  run_script h; intros F; try discriminate F;
    eexists; eexists; (split; [reflexivity | split; reflexivity]).
Qed.

End ScriptFacts.

(** ** Events are answered by the handler *)

Lemma chain_lookup {W} (h : Handler W) w (tr : list (Event W)) w' i e :
  chain h w tr w' -> tr !! i = Some e ->
  ev_res e = fst (h (ev_call e) (ev_pre e)).
Proof.
  revert w i. induction tr as [|e0 tr IH]; intros w i C L; [discriminate|].
  destruct C as (C0 & C1 & C). destruct i as [|i]; simpl in L.
  - injection L as <-. rewrite C0. exact C1.
  - eauto.
Qed.

Lemma exec_lookup {W} (h : Handler W) {A} (p : Prog A) w i e :
  trace_of (exec h p w) !! i = Some e ->
  ev_res e = fst (h (ev_call e) (ev_pre e)).
Proof. apply chain_lookup with (w := w) (w' := world_of (exec h p w)), exec_chain. Qed.

(** What the reference runtime answers to an assertion. *)
Lemma runtime_expect_visible (e : Event World) l :
  ev_res e = fst (runtime (ev_call e) (ev_pre e)) ->
  ev_call e = expect_to_be_visible l ->
  ev_exn e = check_visible (ev_pre e) l.
Proof.
  destruct e as [w c r]; simpl. intros E C. subst c.
  unfold ev_exn; simpl in *. rewrite E.
  destruct (check_visible w l); reflexivity.
Qed.

Arguments text_matches : simpl never.

Lemma filter_existsb_false {A} (f g : A -> bool) (l : list A) :
  (forall x, f x = true -> g x = true) ->
  existsb g l = false -> List.filter f l = [].
Proof.
  intros Hfg. induction l as [|x l IH]; simpl; auto.
  intros H. apply orb_false_elim in H as [Hx Hl].
  destruct (f x) eqn:Fx; auto. apply Hfg in Fx. congruence.
Qed.

(** A page without a button named "Férias" fails the assertion on it. *)
Lemma lacking_ferias_fails (w : World) pg dom :
  page_dom w pg = Some dom ->
  existsb (has_role_name "button" "Férias") dom = false ->
  check_visible w (ferias_button pg) =
    Some (AssertionError (ferias_button pg) "visible").
Proof.
  intros D L. unfold check_visible, target, ferias_button. simpl locator_page.
  rewrite D. simpl resolve.
  rewrite (filter_existsb_false _ (has_role_name "button" "Férias")); auto.
  intros x Hx. unfold has_role_name.
  apply andb_prop in Hx as [Hx _]. exact Hx.
Qed.

Lemma last_raised_at {W} (tr : list (Event W)) i e exn :
  tr !! i = Some e -> ev_exn e = Some exn ->
  forallb ev_ok (drop (S i) tr) = true ->
  last (raised_in tr) = Some exn.
Proof.
  intros L X K. rewrite <- (take_drop_middle tr i e L).
  unfold raised_in. rewrite omap_app.
  change (omap ev_exn (e :: drop (S i) tr))
    with (match ev_exn e with Some y => y :: omap ev_exn (drop (S i) tr)
                         | None => omap ev_exn (drop (S i) tr) end).
  rewrite X.
  assert (omap ev_exn (drop (S i) tr) = []) as ->.
  { revert K. generalize (drop (S i) tr). intros t.
    induction t as [|e' t IH]; simpl; auto.
    unfold ev_ok at 1, ev_exn at 1. destruct (ev_res e'); simpl; auto; discriminate. }
  apply last_snoc.
Qed.

Lemma not_ok_exn {W} (e : Event W) : ev_ok e = false -> exists exn, ev_exn e = Some exn.
Proof. unfold ev_ok, ev_exn. destruct (ev_res e); eauto; discriminate. Qed.

Lemma exn_not_ok {W} (e : Event W) exn : ev_exn e = Some exn -> ev_ok e = false.
Proof. unfold ev_ok, ev_exn. destruct (ev_res e); auto; discriminate. Qed.

(** In the reference runtime the exit handler never raises. *)
Lemma runtime_exit_ok (tr : list (Event World)) w w' :
  chain runtime w tr w' ->
  forallb (fun e => is_exit (ev_call e)) tr = true ->
  forallb ev_ok tr = true.
Proof.
  revert w. induction tr as [|e tr IH]; simpl; auto; intros w (P & R & C) H.
  apply andb_prop in H as [He Ht]. rewrite (IH _ C Ht), andb_true_r.
  destruct e as [w0 c r]; simpl in *. destruct c; try discriminate.
  unfold ev_ok; simpl. rewrite R. reflexivity.
Qed.

Lemma chain_drop {W} (h : Handler W) w (tr : list (Event W)) w' n :
  chain h w tr w' -> exists w0, chain h w0 (drop n tr) w'.
Proof.
  revert w n. induction tr as [|e tr IH]; intros w n C.
  - rewrite drop_nil. eauto.
  - destruct n as [|n]; simpl; eauto. destruct C as (_ & _ & C). eauto.
Qed.

(** C1.  The first call of [run_verification] that raises ends the run:
    whatever the runtime, once a call has raised no further call is made
    apart from the [with] block's exit handler, the run raises, and it
    raises that call's exception when the exit handler returns.  In
    particular the salary field is filled only after the assertion on the
    "Férias" button has passed; and when that assertion is reached on a
    page with no element of role button whose name matches "Férias", it
    raises, the run ends there with that assertion error, and the salary
    field is never filled. *)
Theorem first_failure_aborts_run :
  (forall (W : Type) (h : Handler W) (w : W) i e,
      let x := exec h run_verification w in
      trace_of x !! i = Some e -> ev_ok e = false ->
      returned (result_of x) = false /\
      Forall (fun e' => ev_call e' = sync_playwright_exit) (drop (S i) (trace_of x)) /\
      (forall exn, ev_exn e = Some exn ->
                   forallb ev_ok (drop (S i) (trace_of x)) = true ->
                   result_of x = Raised exn)) /\
  (forall (W : Type) (h : Handler W) (w : W),
      let x := exec h run_verification w in
      existsb is_fill (calls (trace_of x)) = true ->
      exists pg e, trace_of x !! 8 = Some e /\
        ev_call e = expect_to_be_visible (ferias_button pg) /\ ev_ok e = true) /\
  (forall (w : World) i e pg dom,
      let x := exec runtime run_verification w in
      trace_of x !! i = Some e ->
      ev_call e = expect_to_be_visible (ferias_button pg) ->
      page_dom (ev_pre e) pg = Some dom ->
      existsb (has_role_name "button" "Férias") dom = false ->
      result_of x = Raised (AssertionError (ferias_button pg) "visible") /\
      calls (drop (S i) (trace_of x)) = [sync_playwright_exit] /\
      existsb is_fill (calls (trace_of x)) = false).
Proof.
  split; [|split].
  - intros W h w i e x L K.
    destruct (exec_fail_fast h is_exit run_verification w run_exits_through)
      as [F R]. fold x in F, R.
    pose proof (fail_fast_lookup is_exit _ _ _ F L K) as A.
    assert (forall exn, ev_exn e = Some exn ->
              forallb ev_ok (drop (S i) (trace_of x)) = true ->
              result_of x = Raised exn) as B.
    { intros exn X O. pose proof (last_raised_at _ _ _ _ L X O) as La.
      destruct (result_of x) as [u | exn'].
      - rewrite R in La. discriminate.
      - congruence. }
    split; [|split; [|exact B]].
    + destruct (result_of x) as [u | exn'] eqn:Rx; auto.
      destruct (not_ok_exn _ K) as [exn X].
      assert (In exn (raised_in (trace_of x))) as I.
      { rewrite <- (take_drop_middle _ _ _ L). unfold raised_in.
        rewrite omap_app. simpl. rewrite X. apply in_or_app. right. left. auto. }
      rewrite R in I. destruct I.
    + apply Forall_forall. intros e' I.
      rewrite forallb_forall in A. specialize (A e').
      assert (is_exit (ev_call e') = true) as Ex.
      { apply A. apply list_elem_of_In. exact I. }
      destruct (ev_call e'); try discriminate. reflexivity.
  - intros W h w x. apply fill_after_ferias.
  - intros w i e pg dom x L C D N.
    pose proof (exec_lookup runtime run_verification w i e L) as A.
    pose proof (runtime_expect_visible e _ A C) as X.
    rewrite (lacking_ferias_fails _ _ _ D N) in X.
    pose proof (exn_not_ok _ _ X) as K.
    destruct (ferias_failure_stops runtime w i e pg L C K) as [S1 S2].
    split; [|split]; auto.
    destruct (exec_fail_fast runtime is_exit run_verification w run_exits_through)
      as [F R]. fold x in F, R.
    pose proof (fail_fast_lookup is_exit _ _ _ F L K) as Ex.
    destruct (chain_drop runtime w (trace_of x) (world_of x) (S i)
                (exec_chain runtime run_verification w)) as [w0 Ch].
    pose proof (runtime_exit_ok _ _ _ Ch Ex) as O.
    pose proof (last_raised_at _ _ _ _ L X O) as La.
    destruct (result_of x) as [u | exn'].
    + rewrite R in La. discriminate.
    + congruence.
Qed.

Lemma first_failure_aborts_run_witness :
  (let x := exec runtime run_verification no_ferias_world in
   returned (result_of x) = false /\
   Forall (fun e' => ev_call e' = sync_playwright_exit) (drop 9 (trace_of x))) /\
  (let x := exec runtime run_verification good_world in
   exists pg e, trace_of x !! 8 = Some e /\
     ev_call e = expect_to_be_visible (ferias_button pg) /\ ev_ok e = true) /\
  (let x := exec runtime run_verification no_ferias_world in
   result_of x = Raised (AssertionError (ferias_button (PageRef 2)) "visible") /\
   calls (drop 9 (trace_of x)) = [sync_playwright_exit] /\
   existsb is_fill (calls (trace_of x)) = false).
Proof.
  destruct first_failure_aborts_run as (H1 & H2 & H3).
  split; [|split].
  - intros x.
    edestruct (H1 World runtime no_ferias_world 8) as (A & B & _);
      [vm_compute; reflexivity | vm_compute; reflexivity |].
    split; [exact A | exact B].
  - apply (H2 World runtime good_world). vm_compute. reflexivity.
  - eapply (H3 no_ferias_world 8 _ (PageRef 2)); vm_compute; reflexivity.
Defined.

(** ** The reference runtime lets a call through on its precondition *)

Lemma check_visible_None w l : check_visible w l = None <-> unique_visible w l.
Proof.
  unfold check_visible, unique_visible. split.
  - destruct (target w l) as [x | | n | |] eqn:T; try discriminate.
    destruct (el_visible x) eqn:V; try discriminate. eauto.
  - intros (x & -> & ->). reflexivity.
Qed.

Lemma check_hidden_None w l : check_hidden w l = None <-> hidden_or_absent w l.
Proof.
  unfold check_hidden, hidden_or_absent. split.
  - destruct (target w l) as [x | | n | |] eqn:T; try discriminate; auto.
    destruct (el_visible x) eqn:V; try discriminate. eauto.
  - intros [-> | (x & -> & ->)]; reflexivity.
Qed.

Lemma actionable_inl w l :
  (exists x, actionable w l = inl x) <-> unique_visible w l.
Proof.
  unfold actionable, unique_visible. split.
  - intros [x0 H]. destruct (target w l) as [x | | n | |] eqn:T; try discriminate.
    destruct (el_visible x) eqn:V; try discriminate. eauto.
  - intros (x & -> & ->). eauto.
Qed.

Lemma runtime_proceeds_iff (e : Event World) l :
  ev_res e = fst (runtime (ev_call e) (ev_pre e)) ->
  call_locator (ev_call e) = Some l ->
  ev_ok e = true <-> precondition (ev_pre e) (ev_call e).
Proof.
  destruct e as [w c r]; simpl. intros E C. unfold ev_ok; simpl.
  destruct c; try discriminate C; simpl in *; subst r.
  - rewrite <- check_hidden_None. destruct (check_hidden w l0); simpl; split; congruence.
  - rewrite <- check_visible_None. destruct (check_visible w l0); simpl; split; congruence.
  - rewrite <- actionable_inl. destruct (actionable w l0) as [x | x]; simpl; split;
      eauto; try discriminate. intros [? ?]; discriminate.
  - rewrite <- actionable_inl. destruct (actionable w l0) as [x | x]; simpl; split;
      eauto; try discriminate. intros [? ?]; discriminate.
  - rewrite <- actionable_inl. destruct (actionable w l0) as [x | x]; simpl; split;
      eauto; try discriminate. intros [? ?]; discriminate.
Qed.

Lemma forallb_lookup {A} (f : A -> bool) (l : list A) i x :
  forallb f l = true -> l !! i = Some x -> f x = true.
Proof.
  intros F L. rewrite forallb_forall in F. apply F.
  apply list_elem_of_In. eapply list_elem_of_lookup_2; eauto.
Qed.

Lemma is_expect_locator c : is_expect c = true -> exists l, call_locator c = Some l.
Proof. destruct c; try discriminate; simpl; eauto. Qed.

Section ScriptAssertions.
Context {W : Type} (h : Handler W).

Lemma returned_run_assertions (w : W) :
  let x := exec h run_verification w in
  result_of x = Returned tt ->
  forallb ev_ok (trace_of x) = true /\
  exists pg, pages_opened (trace_of x) = [pg] /\
    List.filter is_expect (calls (trace_of x)) = script_assertions pg.
Proof.
  intros x; subst x.
  run_script h; intros R; try discriminate R.
  split; [reflexivity|]. eexists. split; reflexivity.
Qed.

End ScriptAssertions.

(** C2 (as stated).  A run can return after seven assertions: the page of
    [good_world] passes the script, and the calls of that run that are
    assertions number seven, not nine. *)
Lemma nine_assertions_refuted :
  ~ (forall w : World,
       let x := exec runtime run_verification w in
       result_of x = Returned tt ->
       length (List.filter is_expect (calls (trace_of x))) = 9).
Proof.
  intros H. specialize (H good_world). vm_compute in H.
  specialize (H eq_refl). discriminate H.
Qed.

(** C2 (amended).  When [run_verification] returns, every call it made
    returned, and the assertions it checked are the script's seven (one
    [to_be_hidden], six [to_be_visible]), in source order, on the one page
    it opened; against the reference runtime each of them held in the
    world it was checked in. *)
Theorem assertions_held_when_run_returns :
  (forall (W : Type) (h : Handler W) (w : W),
      let x := exec h run_verification w in
      result_of x = Returned tt ->
      forallb ev_ok (trace_of x) = true /\
      exists pg, pages_opened (trace_of x) = [pg] /\
        List.filter is_expect (calls (trace_of x)) = script_assertions pg /\
        length (script_assertions pg) = 7) /\
  (forall (w : World) i e,
      let x := exec runtime run_verification w in
      result_of x = Returned tt ->
      trace_of x !! i = Some e ->
      is_expect (ev_call e) = true ->
      precondition (ev_pre e) (ev_call e)).
Proof.
  split.
  - intros W h w x R.
    destruct (returned_run_assertions h w R) as (O & pg & P & F).
    split; auto. exists pg. auto.
  - intros w i e x R L X.
    destruct (returned_run_assertions runtime w R) as (O & _).
    pose proof (forallb_lookup _ _ _ _ O L) as K.
    pose proof (exec_lookup runtime run_verification w i e L) as A.
    destruct (is_expect_locator _ X) as [l Hl].
    apply (runtime_proceeds_iff e l A Hl), K.
Qed.

Lemma assertions_held_when_run_returns_witness :
  (let x := exec runtime run_verification good_world in
   forallb ev_ok (trace_of x) = true /\
   exists pg, pages_opened (trace_of x) = [pg] /\
     List.filter is_expect (calls (trace_of x)) = script_assertions pg /\
     length (script_assertions pg) = 7) /\
  (exists e, trace_of (exec runtime run_verification good_world) !! 15 = Some e /\
     precondition (ev_pre e) (ev_call e)).
Proof.
  destruct assertions_held_when_run_returns as (H1 & H2).
  split.
  - apply (H1 World runtime good_world). vm_compute. reflexivity.
  - eexists. split; [vm_compute; reflexivity|].
    eapply (H2 good_world 15); vm_compute; reflexivity.
Defined.

(** ** Navigation *)

Section ScriptNavigation.
Context {W : Type} (h : Handler W).

Lemma run_navigations (w : W) :
  let tr := trace_of (exec h run_verification w) in
  navigations tr = map file_url (cwds tr) /\ length (cwds tr) <= 1.
Proof.
  intros tr; subst tr. run_script h; split; cbn; solve [reflexivity | lia].
Qed.

Lemma run_reaches_goto (w : W) p w1 b w2 pg w3 d w4 :
  h sync_playwright_enter w = (inl p, w1) ->
  h (chromium_launch p true) w1 = (inl b, w2) ->
  h (new_page b) w2 = (inl pg, w3) ->
  h os_getcwd w3 = (inl d, w4) ->
  cwds (trace_of (exec h run_verification w)) = [d].
Proof.
  intros E1 E2 E3 E4. unfold run_verification.
  cbn -[os_path_join String.append file_url]. rewrite E1.
  cbn -[os_path_join String.append file_url]. rewrite E2.
  cbn -[os_path_join String.append file_url]. rewrite E3.
  cbn -[os_path_join String.append file_url]. rewrite E4.
  cbn -[os_path_join String.append file_url].
  repeat run_step h; reflexivity.
Qed.

End ScriptNavigation.

(** With Chromium installed the reference runtime gets the script as far
    as [os.getcwd()], which returns the world's working directory. *)
Lemma runtime_cwds (w : World) :
  w_chromium w = true ->
  cwds (trace_of (exec runtime run_verification w)) = [w_cwd w].
Proof.
  intros C.
  eapply (run_reaches_goto runtime w (PlaywrightRef (w_next w)) _
            (BrowserRef (S (w_next w))) _ (PageRef (S (S (w_next w))))).
  - reflexivity.
  - cbn. rewrite C. cbn. reflexivity.
  - cbn. rewrite Nat.eqb_refl. cbn. reflexivity.
  - reflexivity.
Qed.

(** C3.  The URLs [run_verification] navigates to are, one for one, the
    working directories [os.getcwd()] returned, each joined with
    "index.html" and prefixed with "file://", and there is at most one.  On
    the reference runtime with Chromium installed, the run started in
    working directory [d] makes exactly one navigation, to
    "file://" ++ join d "index.html". *)
Theorem navigates_to_index_html_of_cwd :
  (forall (W : Type) (h : Handler W) (w : W),
      let tr := trace_of (exec h run_verification w) in
      navigations tr =
        map (fun d => ("file://" ++ os_path_join d "index.html")%string) (cwds tr) /\
      length (navigations tr) <= 1) /\
  (forall (w : World) (d : string),
      w_cwd w = d -> w_chromium w = true ->
      navigations (trace_of (exec runtime run_verification w)) =
        [("file://" ++ os_path_join d "index.html")%string]).
Proof.
  split.
  - intros W h w tr. destruct (run_navigations h w) as [N L]. fold tr in N, L.
    split; [exact N|]. rewrite N, length_map. exact L.
  - intros w d D C. destruct (run_navigations runtime w) as [N _].
    rewrite N, (runtime_cwds w C), D. reflexivity.
Qed.

Lemma navigates_to_index_html_of_cwd_witness :
  navigations (trace_of (exec runtime run_verification good_world)) =
    [("file://" ++ os_path_join "/home/dev/app" "index.html")%string].
Proof.
  apply (proj2 navigates_to_index_html_of_cwd good_world "/home/dev/app");
    reflexivity.
Defined.

(** ** The salary field *)

Section ScriptSalary.
Context {W : Type} (h : Handler W).

Lemma calculate_click_after_fill (w : W) i e pg :
  let tr := trace_of (exec h run_verification w) in
  tr !! i = Some e ->
  ev_call e = click (calculate_button pg) ->
  exists j k e1 e2,
    j < k /\ k < i /\
    tr !! j = Some e1 /\ ev_call e1 = expect_to_be_visible (salario_input pg) /\
    ev_ok e1 = true /\
    tr !! k = Some e2 /\ ev_call e2 = fill (salario_input pg) "5000.00" /\
    ev_ok e2 = true.
Proof.
  intros tr L C; subst tr. revert L.
  run_script h; intros L; pick_event L; subst e; try discriminate C;
    injection C as <-;
    exists 10, 11; eexists; eexists;
    (split; [lia|]); (split; [lia|]);
    repeat (split; [reflexivity|]); reflexivity.
Qed.

Lemma run_fills (w : W) :
  let tr := trace_of (exec h run_verification w) in
  List.filter is_fill (calls tr) =
    map (fun pg => fill (salario_input pg) "5000.00")
        (omap call_page (List.filter is_fill (calls tr))).
Proof.
  intros tr; subst tr. run_script h; reflexivity.
Qed.

End ScriptSalary.

Lemma path_eqb_eq p q : path_eqb p q = true <-> p = q.
Proof.
  revert q. induction p as [|a p IH]; destruct q as [|b q]; simpl;
    split; try congruence; auto.
  - intros H. apply andb_prop in H as [H1 H2].
    apply Nat.eqb_eq in H1. apply IH in H2. congruence.
  - intros [= -> ->]. rewrite Nat.eqb_refl. apply IH. reflexivity.
Qed.

(** [fill] overwrites: whatever the field held, it holds the new value in
    the document the page gets to react to. *)
Lemma write_value_replaces e v dom x :
  In x (write_value e v dom) -> el_path x = el_path e -> el_value x = v.
Proof.
  unfold write_value. rewrite in_map_iff. intros (y & <- & _) P.
  destruct (path_eqb (el_path y) (el_path e)) eqn:Q; simpl in *; auto.
  apply path_eqb_eq in P. congruence.
Qed.

Lemma resolve_by_id dom pg :
  resolve dom (salario_input pg) =
    Some (List.filter (fun x => String.eqb (el_id x) "ferias-salarioBruto") dom).
Proof.
  assert (css_parse "#ferias-salarioBruto" = Some [SelId "ferias-salarioBruto"]) as P
    by (vm_compute; reflexivity).
  unfold salario_input, resolve. rewrite P. f_equal. apply filter_ext. intros x.
  cbn. rewrite !andb_true_r. reflexivity.
Qed.

(** C4.  Whenever the calculate button is clicked, the run has before
    that asserted the locator [#ferias-salarioBruto] visible and then
    filled it with "5000.00", both calls having returned; the script fills
    nothing else.  In the reference runtime that locator denotes the
    elements whose id is "ferias-salarioBruto", and [fill] hands the page a
    document in which the field holds the new value whatever it held
    before. *)
Theorem salary_filled_before_calculate :
  (forall (W : Type) (h : Handler W) (w : W) i e pg,
      let tr := trace_of (exec h run_verification w) in
      tr !! i = Some e ->
      ev_call e = click (calculate_button pg) ->
      exists j k e1 e2,
        j < k /\ k < i /\
        tr !! j = Some e1 /\
        ev_call e1 = expect_to_be_visible (locator pg "#ferias-salarioBruto" None) /\
        ev_ok e1 = true /\
        tr !! k = Some e2 /\
        ev_call e2 = fill (locator pg "#ferias-salarioBruto" None) "5000.00" /\
        ev_ok e2 = true) /\
  (forall (W : Type) (h : Handler W) (w : W),
      let tr := trace_of (exec h run_verification w) in
      List.filter is_fill (calls tr) =
        map (fun pg => fill (locator pg "#ferias-salarioBruto" None) "5000.00")
            (omap call_page (List.filter is_fill (calls tr)))) /\
  (forall dom pg,
      resolve dom (locator pg "#ferias-salarioBruto" None) =
        Some (List.filter (fun x => String.eqb (el_id x) "ferias-salarioBruto") dom)) /\
  (forall (w : World) l v x,
      actionable w l = inl x ->
      runtime (fill l v) w =
        (inl tt,
         set_dom l (fun d => doc_react d (Filled (set_value v x) v)
                               (write_value x v (doc_dom d))) w) /\
      forall dom y, In y (write_value x v dom) -> el_path y = el_path x ->
                    el_value y = v).
Proof.
  split; [|split; [|split]].
  - intros W h w i e pg. apply calculate_click_after_fill.
  - intros W h w. apply run_fills.
  - apply resolve_by_id.
  - intros w l v x A. split.
    + cbn. rewrite A. reflexivity.
    + intros dom y. apply write_value_replaces.
Qed.

Lemma salary_filled_before_calculate_witness :
  (exists j k e1 e2,
      let tr := trace_of (exec runtime run_verification good_world) in
      j < k /\ k < 13 /\
      tr !! j = Some e1 /\
      ev_call e1 = expect_to_be_visible (locator (PageRef 2) "#ferias-salarioBruto" None) /\
      ev_ok e1 = true /\
      tr !! k = Some e2 /\
      ev_call e2 = fill (locator (PageRef 2) "#ferias-salarioBruto" None) "5000.00" /\
      ev_ok e2 = true) /\
  (forall dom y, In y (write_value (set_visible true salario_el) "5000.00" dom) ->
                 el_path y = [1; 0] -> el_value y = "5000.00").
Proof.
  destruct salary_filled_before_calculate as (H1 & _ & _ & H4).
  split.
  - eapply (H1 World runtime good_world 13 _ (PageRef 2)); vm_compute; reflexivity.
  - eapply (H4 (showing page_dom_done) (salario_input (PageRef 1)) "5000.00"
               (set_visible true salario_el)).
    vm_compute. reflexivity.
Defined.

(** ** The disclaimer assertion *)

Lemma existsb_filter {A} (f g : A -> bool) (l : list A) :
  existsb f (List.filter g l) = existsb (fun x => g x && f x) l.
Proof.
  induction l as [|x l IH]; simpl; auto.
  destruct (g x); simpl; rewrite IH; reflexivity.
Qed.

Lemma existsb_pointwise {A} (f g : A -> bool) (l : list A) :
  (forall x, f x = g x) -> existsb f l = existsb g l.
Proof. intros H. induction l as [|x l IH]; simpl; congruence. Qed.

Lemma resolve_legal_notice dom pg :
  resolve dom (legal_notice_element pg) = Some (List.filter (carries_notice dom) dom).
Proof.
  assert (css_parse "#ferias-results" = Some [SelId "ferias-results"]) as P
    by (vm_compute; reflexivity).
  unfold legal_notice_element, results_container, resolve. rewrite P.
  f_equal. apply filter_ext. intros e.
  unfold carries_notice, in_results. rewrite existsb_filter. f_equal.
  apply existsb_pointwise. intros r.
  unfold is_results_container. cbn. rewrite !andb_true_r. reflexivity.
Qed.

Lemma legal_notice_check (w : World) pg dom :
  page_dom w pg = Some dom ->
  check_visible w (legal_notice_element pg) = None <->
  exists e, List.filter (carries_notice dom) dom = [e] /\ el_visible e = true.
Proof.
  intros D. rewrite check_visible_None. unfold unique_visible, target.
  change (locator_page (legal_notice_element pg)) with pg.
  rewrite D, resolve_legal_notice.
  destruct (List.filter (carries_notice dom) dom) as [|e [|e' es]]; split.
  - intros (x & H & _). discriminate.
  - intros (x & H & _). discriminate.
  - intros (x & [= <-] & V). eauto.
  - intros (x & [= <-] & V). eauto.
  - intros (x & H & _). discriminate.
  - intros (x & H & _). discriminate.
Qed.

Lemma filter_nil_forall {A} (f : A -> bool) (l : list A) :
  (forall x, In x l -> f x = false) -> List.filter f l = [].
Proof.
  induction l as [|x l IH]; simpl; auto. intros H.
  rewrite (H x) by auto. auto.
Qed.

(** [starts_with] and [includes] find a prefix and a sublist. *)
Lemma starts_with_spec (p s : list N) :
  starts_with p s = true <-> exists b, s = p ++ b.
Proof.
  revert s. induction p as [|x p IH]; intros s; simpl.
  - split; eauto.
  - destruct s as [|y s]; simpl.
    + split; [discriminate | intros [b H]; discriminate H].
    + rewrite andb_true_iff, N.eqb_eq, IH. split.
      * intros [-> [b ->]]. eauto.
      * intros [b [= -> ->]]. eauto.
Qed.

Lemma includes_spec (p s : list N) :
  includes p s = true <-> exists a b, s = a ++ p ++ b.
Proof.
  induction s as [|y s IH]; simpl.
  - rewrite orb_false_r, starts_with_spec. split.
    + intros [b H]. exists [], b. exact H.
    + intros (a & b & H). destruct a as [|z a]; [eauto | discriminate H].
  - rewrite orb_true_iff, starts_with_spec, IH. split.
    + intros [[b H] | (a & b & H)].
      * exists [], b. exact H.
      * exists (y :: a), b. simpl. congruence.
    + intros (a & b & H). destruct a as [|z a].
      * left. eauto.
      * right. injection H as -> H. eauto.
Qed.

Lemma text_matches_notice (t : string) :
  text_matches false legal_notice_text t = true <-> contains_notice t.
Proof. unfold text_matches, contains_notice. apply includes_spec. Qed.

Lemma text_matches_notice_false (t : string) :
  text_matches false legal_notice_text t = false <-> ~ contains_notice t.
Proof.
  rewrite <- text_matches_notice.
  destruct (text_matches false legal_notice_text t); split; congruence.
Qed.

Lemma in_results_spec dom e :
  in_results dom e = true <->
  exists r, In r dom /\ el_id r = "ferias-results" /\
            (el_path r = el_path e \/ inside r e = true).
Proof.
  unfold in_results, within, is_results_container. rewrite existsb_exists.
  split.
  - intros (r & I & H). apply andb_prop in H as [H1 H2].
    apply String.eqb_eq in H1. apply orb_prop in H2.
    exists r. repeat split; auto.
    destruct H2 as [H2 | H2]; [left; apply path_eqb_eq; exact H2 | right; exact H2].
  - intros (r & I & H1 & H2). exists r. split; [exact I|].
    apply andb_true_intro. split; [apply String.eqb_eq; exact H1|].
    apply orb_true_intro.
    destruct H2 as [H2 | H2]; [left; apply path_eqb_eq; exact H2 | right; exact H2].
Qed.

Lemma carries_notice_spec dom e :
  carries_notice dom e = true <->
  in_results dom e = true /\ contains_notice (el_text e) /\
  forall c, In c dom -> child_of (el_path e) (el_path c) = true ->
            ~ contains_notice (el_text c).
Proof.
  unfold carries_notice, text_hit.
  rewrite !andb_true_iff, negb_true_iff, text_matches_notice. split.
  - intros (R & T & N). repeat split; auto.
    intros c I C. apply text_matches_notice_false.
    destruct (text_matches false legal_notice_text (el_text c)) eqn:M; auto.
    exfalso. assert (existsb (fun c => child_of (el_path e) (el_path c) &&
                              text_matches false legal_notice_text (el_text c)) dom = true) as X.
    { apply existsb_exists. exists c. rewrite C, M. auto. }
    congruence.
  - intros (R & T & N). repeat split; auto.
    destruct (existsb _ dom) eqn:X; auto. exfalso.
    apply existsb_exists in X as (c & I & H). apply andb_prop in H as [C M].
    apply (N c I C). apply text_matches_notice. exact M.
Qed.

(** C5 (as stated).  Containing the exact string inside the results
    container is neither enough nor needed.  Not enough: the assertion
    raises when the element that holds the disclaimer is hidden, and when
    two paragraphs hold it.  Not needed: it returns when the disclaimer is
    there in capitals, when its words are separated by other white space,
    and when it is the text of the results container itself with no
    element inside holding it.  And the elements counted are the innermost
    ones: with the disclaimer in a paragraph in a wrapper, two elements
    inside the container hold it, as with the two paragraphs, and the
    assertion returns. *)
Lemma disclaimer_claim_refuted :
  let holders dom := List.filter (fun e => inside_results dom e && quotes_notice e) dom in
  let check dom := check_visible (showing dom) (legal_notice_element (PageRef 1)) in
  (length (holders page_dom_notice_hidden) = 1 /\
   check page_dom_notice_hidden =
     Some (AssertionError (legal_notice_element (PageRef 1)) "visible")) /\
  (length (holders page_dom_notice_twice) = 2 /\
   check page_dom_notice_twice =
     Some (StrictModeViolation (legal_notice_element (PageRef 1)) 2)) /\
  (holders page_dom_notice_capitals = [] /\ check page_dom_notice_capitals = None) /\
  (holders page_dom_notice_respaced = [] /\ check page_dom_notice_respaced = None) /\
  (holders page_dom_notice_bare = [] /\ check page_dom_notice_bare = None) /\
  (length (holders page_dom_notice_wrapped) = 2 /\ check page_dom_notice_wrapped = None).
Proof.
  vm_compute. repeat split.
Qed.

(** C5 (amended).  The assertion on the disclaimer is
    [expect(results_container.get_by_text(legal_notice_text, exact=False)).to_be_visible()].
    In the reference runtime it returns exactly when the page has exactly
    one innermost element of a [#ferias-results] element (the container
    itself or an element inside it) whose text contains the disclaimer,
    letter case and white space aside, and that element is visible; here
    an element contains the disclaimer when its text, white space
    normalised and lower-cased, has the disclaimer so treated as a
    contiguous part, and it is innermost when no child element contains
    it too.  A page whose results container holds no text containing the
    disclaimer, or that has the disclaimer only outside the results
    container, fails the assertion. *)
Theorem disclaimer_assertion :
  (forall (w : World) i e pg,
      trace_of (exec runtime run_verification w) !! i = Some e ->
      ev_call e =
        expect_to_be_visible
          (get_by_text (locator pg "#ferias-results" None)
             "Valores aproximados para orientação, não substitui assessoria jurídica."
             false) ->
      ev_exn e = check_visible (ev_pre e) (legal_notice_element pg)) /\
  (forall (w : World) pg dom,
      page_dom w pg = Some dom ->
      (check_visible w (legal_notice_element pg) = None <->
       exists e, List.filter (carries_notice dom) dom = [e] /\ el_visible e = true) /\
      ((forall e, In e dom -> in_results dom e = true ->
                  ~ contains_notice (el_text e)) ->
       check_visible w (legal_notice_element pg) <> None) /\
      ((forall e, In e dom -> contains_notice (el_text e) ->
                  in_results dom e = false) ->
       check_visible w (legal_notice_element pg) <> None)) /\
  (forall dom e,
      (carries_notice dom e = true <->
       in_results dom e = true /\ contains_notice (el_text e) /\
       forall c, In c dom -> child_of (el_path e) (el_path c) = true ->
                 ~ contains_notice (el_text c)) /\
      (in_results dom e = true <->
       exists r, In r dom /\ el_id r = "ferias-results" /\
                 (el_path r = el_path e \/ inside r e = true))).
Proof.
  split; [|split].
  - intros w i e pg L C.
    apply runtime_expect_visible; [eapply exec_lookup; eauto | exact C].
  - intros w pg dom D. split; [apply legal_notice_check; exact D|].
    split; intros H N; apply (legal_notice_check w pg dom D) in N;
      destruct N as (e & F & _);
      rewrite filter_nil_forall in F; try discriminate F;
      intros x I; destruct (carries_notice dom x) eqn:K; auto;
      apply carries_notice_spec in K as (R & T & _); exfalso.
    + exact (H x I R T).
    + rewrite (H x I T) in R. discriminate R.
  - intros dom e. split; [apply carries_notice_spec | apply in_results_spec].
Qed.

Lemma disclaimer_assertion_witness :
  (exists e,
      trace_of (exec runtime run_verification good_world) !! 15 = Some e /\
      ev_exn e = check_visible (ev_pre e) (legal_notice_element (PageRef 2))) /\
  (check_visible (showing page_dom_done) (legal_notice_element (PageRef 1)) = None <->
   exists e, List.filter (carries_notice page_dom_done) page_dom_done = [e] /\
             el_visible e = true) /\
  check_visible (showing page_dom_reworded) (legal_notice_element (PageRef 1)) <> None /\
  check_visible (showing page_dom_notice_outside) (legal_notice_element (PageRef 1)) <> None /\
  check_visible (showing page_dom_notice_wrapped) (legal_notice_element (PageRef 1)) = None.
Proof.
  destruct disclaimer_assertion as (H1 & H2 & _).
  split; [|split; [|split; [|split]]].
  - eexists. split; [vm_compute; reflexivity|].
    eapply (H1 good_world 15); vm_compute; reflexivity.
  - apply (proj1 (H2 (showing page_dom_done) (PageRef 1) page_dom_done eq_refl)).
  - apply (proj1 (proj2 (H2 (showing page_dom_reworded) (PageRef 1)
                            page_dom_reworded eq_refl))).
    intros e I R. apply text_matches_notice_false. vm_compute in I.
    repeat (destruct I as [<- | I]; [vm_compute in R |- *; congruence|]).
    destruct I.
  - apply (proj2 (proj2 (H2 (showing page_dom_notice_outside) (PageRef 1)
                            page_dom_notice_outside eq_refl))).
    intros e I T. apply text_matches_notice in T. vm_compute in I.
    repeat (destruct I as [<- | I]; [vm_compute in T |- *; congruence|]).
    destruct I.
  - apply (proj1 (H2 (showing page_dom_notice_wrapped) (PageRef 1)
                     page_dom_notice_wrapped eq_refl)).
    eexists. split; vm_compute; reflexivity.
Defined.

(** ** Release of the browser *)

Section ScriptRelease.
Context {W : Type} (h : Handler W).

(** A [with] block whose [__enter__] returned ends in the world its
    [__exit__] leaves. *)
Lemma with_exit_world {A} enter exit (body : ret_type enter -> Prog A) (w : W) :
  (exists x w0, h enter w = (inl x, w0)) ->
  exists w1, world_of (exec h (With enter exit body) w) = snd (h exit w1).
Proof.
  intros (x & w0 & E). cbn. rewrite E.
  destruct (exec h (body x) w0) as [[r1 w1] t1].
  exists w1. destruct (h exit w1) as [r2 w2]. reflexivity.
Qed.

Lemma run_ends_with_exit (w : W) :
  let tr := trace_of (exec h run_verification w) in
  (browsers_launched tr <> [] -> last (calls tr) = Some sync_playwright_exit) /\
  length (browsers_launched tr) <= 1 /\
  length (List.filter is_exit (calls tr)) <= 1.
Proof.
  intros tr; subst tr.
  run_script h; (split; [|split]); cbn; try lia; try reflexivity; congruence.
Qed.

Lemma browser_close_is_last_statement (w : W) i e :
  let tr := trace_of (exec h run_verification w) in
  tr !! i = Some e -> is_browser_close (ev_call e) = true ->
  i = 17 /\ forallb ev_ok (take i tr) = true.
Proof.
  intros tr L C; subst tr. revert L.
  run_script h; intros L; pick_event L; subst e; try discriminate C;
    split; reflexivity.
Qed.

End ScriptRelease.

(** However the run ends, the reference runtime is left without browsers
    or pages. *)
Lemma runtime_run_releases (w : World) :
  let x := exec runtime run_verification w in
  w_browsers (world_of x) = [] /\
  w_pages (world_of x) = ∅ /\
  w_running (world_of x) = false.
Proof.
  intros x. unfold x, run_verification.
  match goal with
  | |- context [exec runtime (With ?en ?ex ?body) w] =>
      destruct (with_exit_world runtime en ex body w) as [w1 E];
        [eexists; eexists; reflexivity|]
  end.
  rewrite E. cbn. auto.
Qed.

(** C6.  On every exit path of [run_verification] on which a browser was
    launched, the last call made is the exit handler of the
    [sync_playwright()] context, whether the body returned or raised; so
    whatever the exit handler establishes holds when the run is over,
    however it ended.  The explicit [browser.close()] is the body's last
    statement and is reached only when every call before it returned.  In
    the reference runtime, where a stopping Playwright driver closes the
    browsers it launched, no browser and no page is left after the run,
    be it after normal completion, an assertion failure or a navigation
    error. *)
Theorem browser_released_on_every_exit :
  (forall (W : Type) (h : Handler W) (w : W),
      let tr := trace_of (exec h run_verification w) in
      (browsers_launched tr <> [] -> last (calls tr) = Some sync_playwright_exit) /\
      length (browsers_launched tr) <= 1 /\
      (forall i e, tr !! i = Some e -> is_browser_close (ev_call e) = true ->
                   i = 17 /\ forallb ev_ok (take i tr) = true)) /\
  (forall (W : Type) (h : Handler W) (released : W -> Prop) (w : W) p w0,
      (forall w1, released (snd (h sync_playwright_exit w1))) ->
      h sync_playwright_enter w = (inl p, w0) ->
      released (world_of (exec h run_verification w))) /\
  (forall (w : World),
      let x := exec runtime run_verification w in
      w_browsers (world_of x) = [] /\
      w_pages (world_of x) = ∅ /\
      w_running (world_of x) = false).
Proof.
  split; [|split].
  - intros W h w tr. destruct (run_ends_with_exit h w) as (A & B & _).
    split; [exact A|]. split; [exact B|].
    intros i e. apply browser_close_is_last_statement.
  - intros W h released w p w0 Hx He. unfold run_verification.
    match goal with
    | |- context [exec h (With ?en ?ex ?body) w] =>
        destruct (with_exit_world h en ex body w) as [w1 E]; [eauto|]
    end.
    rewrite E. apply Hx.
  - intros w. apply runtime_run_releases.
Qed.

Lemma browser_released_on_every_exit_witness :
  let failed := exec runtime run_verification no_ferias_world in
  let lost := exec runtime run_verification no_index_world in
  let ok := exec runtime run_verification good_world in
  last (calls (trace_of failed)) = Some sync_playwright_exit /\
  existsb is_browser_close (calls (trace_of failed)) = false /\
  (exists e, trace_of ok !! 17 = Some e /\
             forallb ev_ok (take 17 (trace_of ok)) = true) /\
  w_browsers (world_of lost) = [] /\
  w_browsers (world_of failed) = [].
Proof.
  destruct browser_released_on_every_exit as (H1 & H2 & H3).
  split; [|split; [|split; [|split]]].
  - apply (proj1 (H1 World runtime no_ferias_world)). vm_compute. discriminate.
  - vm_compute. reflexivity.
  - eexists. split; [vm_compute; reflexivity|].
    eapply (proj2 (proj2 (H1 World runtime good_world)) 17); vm_compute; reflexivity.
  - eapply (H2 World runtime (fun w => w_browsers w = []) no_index_world).
    + intros w1. reflexivity.
    + vm_compute. reflexivity.
  - apply (H3 no_ferias_world).
Defined.

(** The three ways out, on the reference runtime: the run on the good page
    returns, the run on the page without the "Férias" entry raises an
    assertion error, the run without [index.html] raises a navigation
    error; only the first calls [browser.close()]. *)
Example exit_paths :
  let ok := exec runtime run_verification good_world in
  let failed := exec runtime run_verification no_ferias_world in
  let lost := exec runtime run_verification no_index_world in
  (result_of ok = Returned tt /\
   existsb is_browser_close (calls (trace_of ok)) = true) /\
  (result_of failed = Raised (AssertionError (ferias_button (PageRef 2)) "visible") /\
   existsb is_browser_close (calls (trace_of failed)) = false /\
   last (calls (trace_of failed)) = Some sync_playwright_exit) /\
  (result_of lost = Raised (PlaywrightError "net::ERR_FILE_NOT_FOUND") /\
   existsb is_browser_close (calls (trace_of lost)) = false /\
   last (calls (trace_of lost)) = Some sync_playwright_exit).
Proof. vm_compute. repeat split. Qed.

(** ** One page, and what each step needs of its locator *)

Section ScriptPage.
Context {W : Type} (h : Handler W).

Lemma run_uses_one_page (w : W) i e pg :
  let tr := trace_of (exec h run_verification w) in
  tr !! i = Some e -> call_page (ev_call e) = Some pg ->
  pages_opened tr = [pg].
Proof.
  intros tr L C; subst tr. revert L.
  run_script h; intros L; pick_event L; subst e; cbn in C;
    try discriminate C; injection C as <-; reflexivity.
Qed.

Lemma run_opens_one_page (w : W) :
  length (pages_opened (trace_of (exec h run_verification w))) <= 1.
Proof. run_script h; cbn; lia. Qed.

End ScriptPage.

(** C7 (as stated).  The loading-placeholder step goes through on a
    locator that denotes no element at all: on the good page the run
    returns, its sixth call is the [to_be_hidden] assertion, and in the
    world it is made in the locator matches nothing. *)
Lemma placeholder_step_needs_no_element :
  ~ (forall (w : World) i e l,
        trace_of (exec runtime run_verification w) !! i = Some e ->
        call_locator (ev_call e) = Some l -> ev_ok e = true ->
        unique_visible (ev_pre e) l).
Proof.
  intros H.
  assert (exists e, trace_of (exec runtime run_verification good_world) !! 5 = Some e /\
                    call_locator (ev_call e) =
                      Some (first (locator (PageRef 2) ".animate-pulse" None)) /\
                    ev_ok e = true /\
                    target (ev_pre e) (first (locator (PageRef 2) ".animate-pulse" None))
                      = NoMatch) as (e & L & C & K & T).
  { eexists. split; [vm_compute; reflexivity|]. vm_compute. auto. }
  destruct (H good_world 5 e _ L C K) as (x & U & _).
  rewrite T in U. discriminate U.
Qed.

(** C7 (amended).  Every call of a run that works on a page works on the
    one page the run opened.  In the reference runtime a visibility
    assertion, click, fill or screenshot returns only when its locator
    denotes exactly one element and that element is visible, and raises
    otherwise; the loading-placeholder step,
    [expect(loading_placeholder.first).to_be_hidden()], returns exactly when
    its locator denotes nothing or an element that is not visible. *)
Theorem one_page_and_strict_locators :
  (forall (W : Type) (h : Handler W) (w : W),
      let tr := trace_of (exec h run_verification w) in
      length (pages_opened tr) <= 1 /\
      forall i e pg, tr !! i = Some e -> call_page (ev_call e) = Some pg ->
                     pages_opened tr = [pg]) /\
  (forall (w : World) i e l,
      trace_of (exec runtime run_verification w) !! i = Some e ->
      call_locator (ev_call e) = Some l ->
      (ev_call e = expect_to_be_hidden l ->
       (ev_ok e = true <-> hidden_or_absent (ev_pre e) l)) /\
      (ev_call e <> expect_to_be_hidden l ->
       (ev_ok e = true -> unique_visible (ev_pre e) l) /\
       (~ unique_visible (ev_pre e) l -> exists exn, ev_exn e = Some exn))).
Proof.
  split.
  - intros W h w tr. split; [apply run_opens_one_page|].
    intros i e pg. apply run_uses_one_page.
  - intros w i e l L C.
    pose proof (exec_lookup runtime run_verification w i e L) as A.
    pose proof (runtime_proceeds_iff e l A C) as P. clear A.
    assert (forall Q : Prop, (ev_ok e = true <-> Q) ->
              (ev_ok e = true -> Q) /\ (~ Q -> exists exn, ev_exn e = Some exn)) as T.
    { intros Q [Q1 Q2]. split; [exact Q1|]. intros NQ. apply not_ok_exn.
      destruct (ev_ok e); auto. exfalso. auto. }
    destruct (ev_call e); simpl in C; try discriminate C;
      injection C as ->; split; intros N; try congruence;
      solve [exact P | apply T; exact P].
Qed.

Lemma one_page_and_strict_locators_witness :
  (exists e, trace_of (exec runtime run_verification good_world) !! 7 = Some e /\
     pages_opened (trace_of (exec runtime run_verification good_world)) = [PageRef 2] /\
     (ev_ok e = true ->
      unique_visible (ev_pre e) (locator (PageRef 2) "summary" (Some "Calculadoras")))) /\
  (exists e, trace_of (exec runtime run_verification good_world) !! 5 = Some e /\
     (ev_ok e = true <->
      hidden_or_absent (ev_pre e) (first (locator (PageRef 2) ".animate-pulse" None)))).
Proof.
  destruct one_page_and_strict_locators as (H1 & H2).
  split.
  - eexists. split; [vm_compute; reflexivity|]. split.
    + eapply (proj2 (H1 World runtime good_world) 7); vm_compute; reflexivity.
    + eapply (proj2 (H2 good_world 7 _ _ _ _)). vm_compute. discriminate.
      Unshelve. all: vm_compute; reflexivity.
  - eexists. split; [vm_compute; reflexivity|].
    eapply (H2 good_world 5); vm_compute; reflexivity.
Defined.

(** ** The screenshot and the file system *)

Section ScriptScreenshot.
Context {W : Type} (h : Handler W).

Lemma returned_run_screenshot (w : W) :
  let x := exec h run_verification w in
  result_of x = Returned tt ->
  exists pg e,
    pages_opened (trace_of x) = [pg] /\
    trace_of x !! 16 = Some e /\
    ev_call e = screenshot (results_container pg) screenshot_path /\
    ev_ok e = true /\
    List.filter (fun e' => is_screenshot (ev_call e')) (trace_of x) = [e].
Proof.
  intros x; subst x.
  run_script h; intros R; try discriminate R.
  eexists; eexists. repeat (split; [reflexivity|]). reflexivity.
Qed.

Lemma run_screenshots (w : W) :
  let tr := trace_of (exec h run_verification w) in
  List.filter is_screenshot (calls tr) =
    map (fun pg => screenshot (results_container pg) screenshot_path)
        (omap call_page (List.filter is_screenshot (calls tr))) /\
  length (List.filter is_screenshot (calls tr)) <= 1.
Proof.
  intros tr; subst tr. run_script h; split; cbn; solve [reflexivity | lia].
Qed.

End ScriptScreenshot.

Lemma runtime_frame (c : Call) (w : World) :
  let w' := snd (runtime c w) in
  w_cwd w' = w_cwd w /\ w_argv w' = w_argv w /\ w_environ w' = w_environ w /\
  w_files w' = match write_of c w with
               | Some kv => store (w_files w) kv
               | None => w_files w
               end.
Proof.
  destruct c; cbn -[strip_prefix os_path_join capture]; auto.
  - destruct (negb (w_running w)); cbn; auto.
    destruct (negb (w_chromium w)); cbn; auto.
  - destruct b as [b]. destruct (existsb (Nat.eqb b) (w_browsers w)); cbn; auto.
  - destruct pg as [n]. destruct (w_pages w !! n) as [[b d]|]; cbn -[strip_prefix]; auto.
    destruct (strip_prefix "file://" url) as [path|]; cbn; auto.
    destruct (w_files w !! path) as [[d' | i | s]|]; cbn; auto.
  - destruct (actionable w l); cbn; auto.
    unfold set_dom. destruct (locator_page l) as [n].
    destruct (w_pages w !! n) as [[b d]|]; cbn; auto.
  - destruct (actionable w l); cbn; auto.
    unfold set_dom. destruct (locator_page l) as [n].
    destruct (w_pages w !! n) as [[b d]|]; cbn; auto.
  - destruct (actionable w l); cbn -[os_path_join capture]; auto.
  - destruct b as [b]. cbn. auto.
Qed.

Lemma chain_frame (w : World) tr w' :
  chain runtime w tr w' ->
  w_cwd w' = w_cwd w /\ w_argv w' = w_argv w /\ w_environ w' = w_environ w /\
  w_files w' = fold_left store (file_writes tr) (w_files w) /\
  forall i e, tr !! i = Some e -> w_cwd (ev_pre e) = w_cwd w.
Proof.
  revert w. induction tr as [|e tr IH]; intros w.
  - simpl. intros ->. repeat split; auto. intros i e L. discriminate L.
  - intros (P & R & C). destruct (IH _ C) as (A1 & A2 & A3 & A4 & A5).
    destruct (runtime_frame (ev_call e) w) as (B1 & B2 & B3 & B4).
    cbn in B1, B2, B3, B4.
    repeat split; try congruence.
    + rewrite A4, B4. unfold file_writes. cbn. rewrite P.
      destruct (write_of (ev_call e) w); reflexivity.
    + intros [|i] e' L; simpl in L.
      * injection L as <-. rewrite P. reflexivity.
      * rewrite (A5 i e' L). exact B1.
Qed.

Lemma file_writes_screenshots (tr : list (Event World)) :
  file_writes tr =
    file_writes (List.filter (fun e => is_screenshot (ev_call e)) tr).
Proof.
  unfold file_writes. induction tr as [|e tr IH]; simpl; auto.
  destruct (ev_call e) eqn:C; simpl; auto.
  rewrite C. cbn. destruct (actionable (ev_pre e) l); cbn; [f_equal|]; exact IH.
Qed.

(** The root of a captured image is the element the locator denotes. *)
Lemma results_target_id (w : World) pg x :
  actionable w (results_container pg) = inl x -> is_results_container x = true.
Proof.
  assert (css_parse "#ferias-results" = Some [SelId "ferias-results"]) as P
    by (vm_compute; reflexivity).
  unfold actionable, target, results_container. simpl locator_page.
  destruct (page_dom w pg) as [dom|]; try discriminate.
  unfold resolve. rewrite P.
  destruct (List.filter _ dom) as [|y [|z l]] eqn:F; try discriminate.
  destruct (el_visible y); try discriminate. intros [= <-].
  assert (In y (List.filter
                  (fun e => css_matches [SelId "ferias-results"] e && true) dom)) as I
    by (rewrite F; left; reflexivity).
  apply filter_In in I as [_ I]. cbn in I. rewrite !andb_true_r in I. exact I.
Qed.

(** C8.  A run that returns makes exactly one screenshot call, on the
    locator [#ferias-results] and with the path
    "jules-scratch/verification/verification.png"; no run makes any other.
    In the reference runtime the file system after such a run is the file
    system before it with that one path, taken relative to the working
    directory, bound to an image of an element whose id is
    "ferias-results", whatever was stored there before; the working
    directory, command line and environment are as before, and no browser
    or page is left. *)
Theorem one_screenshot_written :
  (forall (W : Type) (h : Handler W) (w : W),
      let x := exec h run_verification w in
      (result_of x = Returned tt ->
       exists pg,
         pages_opened (trace_of x) = [pg] /\
         List.filter is_screenshot (calls_ok (trace_of x)) =
           [screenshot (locator pg "#ferias-results" None)
                       "jules-scratch/verification/verification.png"]) /\
      length (List.filter is_screenshot (calls (trace_of x))) <= 1) /\
  (forall (w : World),
      let x := exec runtime run_verification w in
      result_of x = Returned tt ->
      (exists img,
          w_files (world_of x) =
            <[os_path_join (w_cwd w) "jules-scratch/verification/verification.png"
              := PngFile img]> (w_files w) /\
          is_results_container (img_root img) = true) /\
      w_cwd (world_of x) = w_cwd w /\
      w_argv (world_of x) = w_argv w /\
      w_environ (world_of x) = w_environ w /\
      w_browsers (world_of x) = [] /\
      w_pages (world_of x) = ∅).
Proof.
  split.
  - intros W h w x. split.
    + intros R. destruct (returned_run_assertions h w R) as (O & _).
      destruct (returned_run_screenshot h w R) as (pg & e & P & L & C & K & F).
      exists pg. split; [exact P|]. fold x in O, F.
      unfold calls_ok.
      assert (List.filter ev_ok (trace_of x) = trace_of x) as ->.
      { revert O. generalize (trace_of x). intros t. induction t as [|a t IH]; simpl; auto.
        intros H. apply andb_prop in H as [-> H]. f_equal. auto. }
      change (map ev_call (trace_of x)) with (calls (trace_of x)).
      unfold calls. rewrite (filter_map_swap is_screenshot ev_call).
      rewrite F. cbn. rewrite C. reflexivity.
    + apply (run_screenshots h w).
  - intros w x R.
    destruct (returned_run_screenshot runtime w R) as (pg & e & P & L & C & K & F).
    fold x in P, L, F.
    pose proof (exec_chain runtime run_verification w) as Ch. fold x in Ch.
    destruct (chain_frame _ _ _ Ch) as (A1 & A2 & A3 & A4 & A5).
    destruct (runtime_run_releases w) as (R1 & R2 & _). fold x in R1, R2.
    repeat split; auto.
    pose proof (exec_lookup runtime run_verification w 16 e L) as An.
    rewrite file_writes_screenshots, F in A4.
    unfold file_writes in A4. cbn in A4. rewrite C in A4. cbn in A4.
    pose proof (runtime_proceeds_iff e _ An
                  (eq_trans (f_equal call_locator C) eq_refl)) as Pre.
    destruct e as [w0 c r]. cbn in *. subst c. cbn in *.
    destruct (actionable w0 (results_container pg)) as [y | y] eqn:Act.
    + cbn in A4. exists (capture y (dom_of (results_container pg) w0)).
      split.
      * rewrite A4. unfold store. cbn.
        pose proof (A5 16 _ L) as Cw. cbn in Cw. rewrite Cw. reflexivity.
      * cbn. eapply results_target_id; eauto.
    + exfalso. apply Pre in K. apply actionable_inl in K as [y' K].
      rewrite Act in K. discriminate K.
Qed.

Lemma one_screenshot_written_witness :
  let x := exec runtime run_verification rerun_world in
  (exists pg,
      pages_opened (trace_of x) = [pg] /\
      List.filter is_screenshot (calls_ok (trace_of x)) =
        [screenshot (locator pg "#ferias-results" None)
                    "jules-scratch/verification/verification.png"]) /\
  (exists old,
      w_files rerun_world
        !! "/home/dev/app/jules-scratch/verification/verification.png" = Some old) /\
  (exists img,
      w_files (world_of x) =
        <[os_path_join (w_cwd rerun_world) "jules-scratch/verification/verification.png"
          := PngFile img]> (w_files rerun_world) /\
      is_results_container (img_root img) = true).
Proof.
  destruct one_screenshot_written as (H1 & H2).
  split; [|split].
  - apply (proj1 (H1 World runtime rerun_world)). vm_compute. reflexivity.
  - eexists. vm_compute. reflexivity.
  - apply (H2 rerun_world). vm_compute. reflexivity.
Defined.

(** ** Command line and environment *)

Section Unwinding.
Context {W : Type} (h : Handler W) (R : W -> W -> Prop).
Hypothesis h_respects : respects h R.

(** A program that never reads the invocation behaves alike in related
    worlds: same outcome, same calls with the same answers, related final
    worlds. *)
Lemma exec_unwinding {A} (p : Prog A) (w1 w2 : W) :
  ignores_invocation p -> R w1 w2 ->
  result_of (exec h p w1) = result_of (exec h p w2) /\
  observations (trace_of (exec h p w1)) = observations (trace_of (exec h p w2)) /\
  R (world_of (exec h p w1)) (world_of (exec h p w2)).
Proof.
  revert w1 w2.
  induction p as [A a | c | A B p IHp k IHk | A enter exit body IH];
    intros w1 w2 I Rw; simpl in I.
  - cbn. auto.
  - destruct (h_respects c w1 w2 I Rw) as [E1 E2]. cbn.
    destruct (h c w1) as [r1 v1], (h c w2) as [r2 v2]. cbn in *. subst r2.
    auto.
  - destruct I as [Ip Ik]. specialize (IHp w1 w2 Ip Rw). cbn.
    destruct (exec h p w1) as [[r1 v1] t1], (exec h p w2) as [[r2 v2] t2].
    cbn in IHp. destruct IHp as (E1 & E2 & E3). subst r2.
    destruct r1 as [a | e]; cbn; auto.
    specialize (IHk a v1 v2 (Ik a) E3).
    destruct (exec h (k a) v1) as [[r1' v1'] t1'],
             (exec h (k a) v2) as [[r2' v2'] t2'].
    cbn in *. destruct IHk as (F1 & F2 & F3).
    unfold observations in *. rewrite !map_app. repeat split; congruence.
  - destruct I as (Ie & Ix & Ib). cbn.
    destruct (h_respects enter w1 w2 Ie Rw) as [E1 E2].
    destruct (h enter w1) as [r1 v1], (h enter w2) as [r2 v2]. cbn in E1, E2.
    subst r2. destruct r1 as [x | e]; cbn; auto.
    specialize (IH x v1 v2 (Ib x) E2).
    destruct (exec h (body x) v1) as [[b1 u1] t1],
             (exec h (body x) v2) as [[b2 u2] t2].
    cbn in IH. destruct IH as (F1 & F2 & F3). subst b2.
    destruct (h_respects exit u1 u2 Ix F3) as [G1 G2].
    destruct (h exit u1) as [x1 y1], (h exit u2) as [x2 y2]. cbn in G1, G2.
    subst x2. cbn. unfold observations in *. cbn. rewrite !map_app. cbn.
    rewrite F2. repeat split; auto.
Qed.

End Unwinding.

Lemma module_ignores_invocation name : ignores_invocation (module_body name).
Proof.
  unfold module_body. cbn. repeat split; auto.
  destruct (String.eqb name "__main__"); cbn; repeat split; auto.
Qed.

(** The reference runtime consults the command line and the environment
    only to answer [sys.argv] and [os.environ]. *)
Lemma runtime_respects : respects runtime same_but_invocation.
Proof.
  intros c w1 w2 Rd S. unfold same_but_invocation in *.
  rewrite S. generalize (w_argv w2) (w_environ w2). intros a e. clear S w2.
  destruct c; try discriminate Rd; cbn -[strip_prefix os_path_join capture]; auto.
  - destruct (negb (w_running w1)); cbn; auto.
    destruct (negb (w_chromium w1)); cbn; auto.
  - destruct b as [b]. destruct (existsb (Nat.eqb b) (w_browsers w1)); cbn; auto.
  - destruct pg as [n]. destruct (w_pages w1 !! n) as [[b d]|]; cbn -[strip_prefix]; auto.
    destruct (strip_prefix "file://" url) as [path|]; cbn; auto.
    destruct (w_files w1 !! path) as [[d' | i | s]|]; cbn; auto.
  - change (actionable (with_invocation a e w1) l) with (actionable w1 l).
    destruct (actionable w1 l); cbn; auto.
    unfold set_dom. destruct (locator_page l) as [n]. cbn.
    destruct (w_pages w1 !! n) as [[b d]|]; cbn; auto.
  - change (actionable (with_invocation a e w1) l) with (actionable w1 l).
    destruct (actionable w1 l); cbn; auto.
    unfold set_dom. destruct (locator_page l) as [n]. cbn.
    destruct (w_pages w1 !! n) as [[b d]|]; cbn; auto.
  - change (actionable (with_invocation a e w1) l) with (actionable w1 l).
    destruct (actionable w1 l); cbn -[os_path_join capture]; auto.
  - destruct b as [b]. cbn. auto.
Qed.

Lemma runtime_on_path_other (c : Call) :
  is_import c = false -> runtime_on_path c = runtime c.
Proof. destruct c; try reflexivity. discriminate. Qed.

(** With no PYTHONPATH the two runtimes are one. *)
Lemma runtime_on_path_unset (c : Call) (w : World) :
  search_path w = [] -> runtime_on_path c w = runtime c w.
Proof.
  intros P. destruct c; try reflexivity.
  cbn. unfold shadowed. rewrite P. cbn. rewrite andb_false_r. reflexivity.
Qed.

(** The runtime with the search path modelled answers alike in worlds that
    differ in command line and environment but name the same search
    path. *)
Lemma runtime_on_path_respects : respects runtime_on_path same_search_path.
Proof.
  intros c w1 w2 Rd [S P].
  destruct (is_import c) eqn:I.
  - destruct c; try discriminate I. cbn.
    assert (shadowed w2 name = shadowed w1 name) as ->.
    { unfold shadowed, is_file. rewrite P.
      unfold same_but_invocation in S. rewrite S. reflexivity. }
    destruct (shadowed w1 name); cbn; repeat split; auto.
  - rewrite (runtime_on_path_other c I).
    destruct (runtime_respects c w1 w2 Rd S) as [A B].
    split; [exact A|]. split; [exact B|].
    destruct (runtime_frame c w1) as (_ & _ & E1 & _).
    destruct (runtime_frame c w2) as (_ & _ & E2 & _).
    cbn in E1, E2. unfold search_path in *. rewrite E1, E2. exact P.
Qed.

(** C9 (as stated).  Two invocations with the same command line, working
    directory, files and page, differing only in the environment: with
    PYTHONPATH naming a directory that holds a file playwright.py the
    import of [playwright.sync_api] raises and the run ends after two
    calls; without it the run makes all twenty-two calls and returns. *)
Lemma environment_decides_the_imports :
  let w1 := shadow_world in
  let w2 := with_invocation (w_argv w1) [("PYTHONPATH", "/tmp/shadow")] w1 in
  let x1 := exec runtime_on_path (module_body "__main__") w1 in
  let x2 := exec runtime_on_path (module_body "__main__") w2 in
  w_argv w1 = w_argv w2 /\ w_cwd w1 = w_cwd w2 /\ w_files w1 = w_files w2 /\
  result_of x1 = Returned tt /\ length (calls (trace_of x1)) = 22 /\
  result_of x2 = Raised (ImportError "playwright.sync_api") /\
  calls (trace_of x2) =
    [import_module "asyncio"; import_module "playwright.sync_api"].
Proof.
  intros w1 w2 x1 x2.
  repeat (split; [vm_compute; reflexivity|]). vm_compute. reflexivity.
Qed.

(** C9 (amended).  The script itself consumes neither the command line nor
    the environment: run as a script, the module makes no call that reads
    [sys.argv] or [os.environ].  So against any runtime that answers the
    other calls alike in two worlds, its runs in those worlds have the
    same outcome and make the same calls with the same answers, and leave
    worlds that are again alike.  What the command line or the environment
    changes, they change through the runtime. *)
Theorem behaviour_independent_of_invocation :
  ignores_invocation (module_body "__main__") /\
  (forall (W : Type) (h : Handler W) (R : W -> W -> Prop) (w1 w2 : W),
      respects h R -> R w1 w2 ->
      let x1 := exec h (module_body "__main__") w1 in
      let x2 := exec h (module_body "__main__") w2 in
      result_of x1 = result_of x2 /\
      observations (trace_of x1) = observations (trace_of x2) /\
      R (world_of x1) (world_of x2)).
Proof.
  split; [apply module_ignores_invocation|].
  intros W h R w1 w2 Hr Rw x1 x2.
  apply (exec_unwinding h R Hr); [apply module_ignores_invocation | exact Rw].
Qed.

Lemma behaviour_independent_of_invocation_witness :
  let w1 := with_invocation ["verify_footer.py"]
              [("PYTHONPATH", "/opt/lib"); ("HOME", "/home/dev")] shadow_world in
  let w2 := with_invocation ["verify_footer.py"; "--headed"; "x"]
              [("HEADLESS", "0"); ("PYTHONPATH", "/opt/lib")] shadow_world in
  let x1 := exec runtime_on_path (module_body "__main__") w1 in
  let x2 := exec runtime_on_path (module_body "__main__") w2 in
  result_of x1 = result_of x2 /\
  observations (trace_of x1) = observations (trace_of x2) /\
  same_search_path (world_of x1) (world_of x2).
Proof.
  apply (proj2 behaviour_independent_of_invocation
           World runtime_on_path same_search_path).
  - exact runtime_on_path_respects.
  - split; vm_compute; reflexivity.
Defined.

(** A program that does read the command line tells the two worlds apart. *)
Example argv_reader_depends :
  result_of (exec runtime (Do sys_argv) good_world) <>
  result_of (exec runtime (Do sys_argv) (with_invocation ["x"] [] good_world)).
Proof. vm_compute. discriminate. Qed.

(** ** Import *)

Section ModuleImport.
Context {W : Type} (h : Handler W).

Lemma import_makes_only_imports (w : W) name :
  name <> "__main__" ->
  let x := exec h (module_body name) w in
  calls (trace_of x) = take (length (trace_of x)) module_imports /\
  (forallb ev_ok (trace_of x) = true ->
   result_of x = Returned tt /\ calls (trace_of x) = module_imports).
Proof.
  intros N x; subst x. apply String.eqb_neq in N.
  unfold module_body. rewrite N.
  cbn. repeat run_step h; split; try reflexivity; intros O;
    solve [discriminate O | split; reflexivity].
Qed.

Lemma main_runs_verification (w : W) :
  forallb ev_ok (trace_of (exec h (module_body "__main__") w)) = true ->
  existsb is_interaction (calls (trace_of (exec h (module_body "__main__") w))) = true.
Proof.
  run_script h; intros O; solve [discriminate O | reflexivity].
Qed.

End ModuleImport.

Lemma take_all_imports (cs : list Call) n :
  cs = take n module_imports -> forallb is_import cs = true.
Proof.
  intros ->. destruct n as [|[|[|[|n]]]]; reflexivity.
Qed.

(** C10.  Loaded under any name other than "__main__", the module does
    nothing but its three imports: the calls it makes are a prefix of
    [import asyncio], [from playwright.sync_api import ...], [import os]
    (all three when none raises), so no browser is launched, no page
    opened, navigated or acted on, and no screenshot taken; in the
    reference runtime the world is left as it was.  Run as "__main__", a
    run in which every call returns does act on a page. *)
Theorem import_has_no_effect :
  (forall (W : Type) (h : Handler W) (w : W) (name : string),
      name <> "__main__" ->
      let x := exec h (module_body name) w in
      calls (trace_of x) = take (length (trace_of x)) module_imports /\
      forallb is_import (calls (trace_of x)) = true /\
      browsers_launched (trace_of x) = [] /\
      pages_opened (trace_of x) = [] /\
      existsb is_interaction (calls (trace_of x)) = false) /\
  (forall (w : World) (name : string),
      name <> "__main__" ->
      let x := exec runtime (module_body name) w in
      result_of x = Returned tt /\ world_of x = w) /\
  (forall (W : Type) (h : Handler W) (w : W),
      let x := exec h (module_body "__main__") w in
      forallb ev_ok (trace_of x) = true ->
      existsb is_interaction (calls (trace_of x)) = true).
Proof.
  split; [|split].
  - intros W h w name N x.
    destruct (import_makes_only_imports h w name N) as [P _]. fold x in P.
    split; [exact P|].
    assert (forallb is_import (calls (trace_of x)) = true) as I
      by (eapply take_all_imports; eauto).
    split; [exact I|].
    clear P. revert I. unfold browsers_launched, pages_opened, calls.
    generalize (trace_of x). intros t.
    induction t as [|e t IH]; [cbn; auto|].
    cbn. intros H. apply andb_prop in H as [He Ht].
    destruct (IH Ht) as (A & B & C).
    destruct e as [w0 c r]. cbn in *.
    destruct c; try discriminate He. cbn. auto.
  - intros w name N x; subst x. apply String.eqb_neq in N.
    unfold module_body. rewrite N. cbn. auto.
  - intros W h w. apply main_runs_verification.
Qed.

Lemma import_has_no_effect_witness :
  (let x := exec runtime (module_body "verify_footer") good_world in
   calls (trace_of x) = take (length (trace_of x)) module_imports /\
   forallb is_import (calls (trace_of x)) = true /\
   browsers_launched (trace_of x) = [] /\
   pages_opened (trace_of x) = [] /\
   existsb is_interaction (calls (trace_of x)) = false) /\
  (let x := exec runtime (module_body "verify_footer") good_world in
   result_of x = Returned tt /\ world_of x = good_world) /\
  (let x := exec runtime (module_body "__main__") good_world in
   existsb is_interaction (calls (trace_of x)) = true).
Proof.
  destruct import_has_no_effect as (H1 & H2 & H3).
  split; [|split].
  - apply (H1 World runtime good_world "verify_footer"). discriminate.
  - apply (H2 good_world "verify_footer"). discriminate.
  - apply (H3 World runtime good_world). vm_compute. reflexivity.
Defined.

(* ===================================================================== *)
(** * Part V.  Further properties of the script                            *)
(* ===================================================================== *)

(** ** The run as a prefix of the script *)

Section ScriptShape.
Context {W : Type} (h : Handler W).

Lemma run_trace_shape (w : W) :
  let tr := trace_of (exec h run_verification w) in
  let n := length tr - length (entered tr) in
  calls tr = take n (script_of tr) ++
             repeat sync_playwright_exit (length (entered tr)) /\
  forallb ev_ok (take (n - 1) tr) = true /\
  1 <= n <= 18 /\ length (entered tr) <= 1.
Proof.
  intros tr n; subst tr n.
  run_script h; (split; [reflexivity | split; [reflexivity | cbn; lia]]).
Qed.

End ScriptShape.

(** X1.  The calls of a run are always an initial part of the script's
    eighteen calls, taken in source order at the values the run's own calls
    returned, followed by the exit handler of the [with] block once if
    [__enter__] returned and not at all if it raised; every call but the
    last of that initial part returned.  So no run makes more than
    nineteen calls, skips a step, repeats one or makes them in another
    order. *)
Theorem run_is_a_prefix_of_the_script :
  forall (W : Type) (h : Handler W) (w : W),
    let tr := trace_of (exec h run_verification w) in
    let n := length tr - length (entered tr) in
    calls tr = take n (script_of tr) ++
               repeat sync_playwright_exit (length (entered tr)) /\
    forallb ev_ok (take (n - 1) tr) = true /\
    1 <= n <= 18 /\ length (entered tr) <= 1 /\ length tr <= 19.
Proof.
  intros W h w tr n.
  destruct (run_trace_shape h w) as (A & B & C & D).
  fold tr in A, B, C, D. fold n in A, B, C.
  split; [exact A|]. split; [exact B|]. split; [exact C|]. split; [exact D|].
  assert (length tr = length (calls tr)) as L
    by (unfold calls; rewrite length_map; reflexivity).
  rewrite A, length_app, length_take, repeat_length in L. lia.
Qed.

(** ** Acting only on what was asserted *)

Section ScriptActions.
Context {W : Type} (h : Handler W).

Lemma action_follows_assertion (w : W) i e l :
  let tr := trace_of (exec h run_verification w) in
  tr !! i = Some e -> is_action (ev_call e) = true ->
  call_locator (ev_call e) = Some l ->
  exists j e0,
    j < i /\ tr !! j = Some e0 /\
    ev_call e0 = expect_to_be_visible l /\ ev_ok e0 = true /\
    forall k e', j < k < i -> tr !! k = Some e' -> is_expect (ev_call e') = true.
Proof.
  intros tr L A C; subst tr. revert L.
  run_script h; intros L; pick_event L; subst e; try discriminate A;
    cbn in C; injection C as <-.
  all: first
    [ exists 6; eexists; split; [lia|]; split; [reflexivity|]; split; [reflexivity|];
      split; [reflexivity|]; intros k e' K L'; lia
    | exists 8; eexists; split; [lia|]; split; [reflexivity|]; split; [reflexivity|];
      split; [reflexivity|]; intros k e' K L'; lia
    | exists 10; eexists; split; [lia|]; split; [reflexivity|]; split; [reflexivity|];
      split; [reflexivity|]; intros k e' K L'; lia
    | exists 12; eexists; split; [lia|]; split; [reflexivity|]; split; [reflexivity|];
      split; [reflexivity|]; intros k e' K L'; lia
    | exists 14; eexists; split; [lia|]; split; [reflexivity|]; split; [reflexivity|];
      split; [reflexivity|]; intros k e' K L';
      assert (k = 15) as -> by lia; cbn in L'; injection L' as <-; reflexivity ].
Qed.

End ScriptActions.

(** X2.  The script never acts on an element it has not just checked: each
    click, fill and screenshot is made on a locator for which a
    [to_be_visible] assertion on that very locator returned earlier in the
    run, with nothing but further assertions in between, so no action of
    the script separates the check from the act. *)
Theorem acts_only_on_asserted_locators :
  forall (W : Type) (h : Handler W) (w : W) i e l,
    let tr := trace_of (exec h run_verification w) in
    tr !! i = Some e -> is_action (ev_call e) = true ->
    call_locator (ev_call e) = Some l ->
    exists j e0,
      j < i /\ tr !! j = Some e0 /\
      ev_call e0 = expect_to_be_visible l /\ ev_ok e0 = true /\
      forall k e', j < k < i -> tr !! k = Some e' -> is_expect (ev_call e') = true.
Proof. intros W h w i e l. apply action_follows_assertion. Qed.

Lemma acts_only_on_asserted_locators_witness :
  exists j e0,
    let tr := trace_of (exec runtime run_verification good_world) in
    j < 16 /\ tr !! j = Some e0 /\
    ev_call e0 = expect_to_be_visible (results_container (PageRef 2)) /\
    ev_ok e0 = true /\
    forall k e', j < k < 16 -> tr !! k = Some e' -> is_expect (ev_call e') = true.
Proof.
  eapply (acts_only_on_asserted_locators World runtime good_world 16);
    vm_compute; reflexivity.
Defined.

(** ** Returning and raising *)

Lemma all_ok_raised_in_nil {W} (t : list (Event W)) :
  forallb ev_ok t = true -> raised_in t = [].
Proof.
  unfold raised_in. induction t as [|e t IH]; simpl; auto.
  intros H. apply andb_prop in H as [He Ht].
  unfold ev_ok in He. unfold ev_exn at 1. destruct (ev_res e); try discriminate.
  auto.
Qed.

(** A program returns exactly when none of its calls raised. *)
Lemma exec_returned_iff {W} (h : Handler W) cleanup {A} (p : Prog A) (w : W) :
  exits_through cleanup p ->
  returned (result_of (exec h p w)) = forallb ev_ok (trace_of (exec h p w)).
Proof.
  intros X. destruct (exec_fail_fast h cleanup p w X) as [_ R].
  destruct (result_of (exec h p w)) as [a | x]; simpl.
  - symmetry. apply raised_in_nil_ok. exact R.
  - destruct (forallb ev_ok (trace_of (exec h p w))) eqn:O; auto.
    rewrite (all_ok_raised_in_nil _ O) in R. discriminate R.
Qed.

Section ScriptOutcome.
Context {W : Type} (h : Handler W).

Lemma returned_run_length (w : W) :
  result_of (exec h run_verification w) = Returned tt ->
  length (trace_of (exec h run_verification w)) = 19.
Proof.
  run_script h; intros R; try discriminate R. reflexivity.
Qed.

Lemma screenshot_position (w : W) i e :
  let x := exec h run_verification w in
  trace_of x !! i = Some e -> is_screenshot (ev_call e) = true ->
  i = 16 /\
  forallb ev_ok (take 16 (trace_of x)) = true /\
  exists pg, ev_call e = screenshot (results_container pg) screenshot_path /\
             List.filter is_expect (calls (take 16 (trace_of x))) = script_assertions pg.
Proof.
  intros x L S; subst x. revert L.
  run_script h; intros L; pick_event L; subst e; try discriminate S;
    (split; [reflexivity|]); (split; [reflexivity|]); eexists; split; reflexivity.
Qed.

End ScriptOutcome.

(** X3.  A run of [run_verification] returns exactly when every call it
    made returned, and it has then made all nineteen calls; when it
    raises, what it raises is the last exception one of its calls raised.
    The script raises nothing of its own and swallows nothing. *)
Theorem run_returns_iff_every_call_returned :
  forall (W : Type) (h : Handler W) (w : W),
    let x := exec h run_verification w in
    (result_of x = Returned tt <-> forallb ev_ok (trace_of x) = true) /\
    (result_of x = Returned tt -> length (trace_of x) = 19) /\
    (forall exn, result_of x = Raised exn ->
                 last (raised_in (trace_of x)) = Some exn).
Proof.
  intros W h w x.
  pose proof (exec_returned_iff h is_exit run_verification w run_exits_through) as I.
  destruct (exec_fail_fast h is_exit run_verification w run_exits_through) as [_ R].
  fold x in I, R. split; [|split].
  - rewrite <- I. destruct (result_of x) as [[] | exn]; simpl; split; congruence.
  - apply returned_run_length.
  - intros exn E. rewrite E in R. exact R.
Qed.

Lemma run_returns_iff_every_call_returned_witness :
  let x := exec runtime run_verification good_world in
  let y := exec runtime run_verification no_index_world in
  result_of x = Returned tt /\ length (trace_of x) = 19 /\
  last (raised_in (trace_of y)) = Some (PlaywrightError "net::ERR_FILE_NOT_FOUND").
Proof.
  split; [|split].
  - apply (proj1 (run_returns_iff_every_call_returned World runtime good_world)).
    vm_compute. reflexivity.
  - apply (proj1 (proj2 (run_returns_iff_every_call_returned World runtime good_world))).
    vm_compute. reflexivity.
  - apply (proj2 (proj2 (run_returns_iff_every_call_returned World runtime no_index_world))).
    vm_compute. reflexivity.
Defined.

(** X4.  The screenshot is the seventeenth call and is made only when all
    sixteen calls before it returned, the seven assertions among them: no
    screenshot is ever taken of a page that failed a check. *)
Theorem screenshot_only_after_all_checks :
  forall (W : Type) (h : Handler W) (w : W) i e,
    let tr := trace_of (exec h run_verification w) in
    tr !! i = Some e -> is_screenshot (ev_call e) = true ->
    i = 16 /\
    forallb ev_ok (take 16 tr) = true /\
    exists pg, ev_call e = screenshot (results_container pg) screenshot_path /\
               List.filter is_expect (calls (take 16 tr)) = script_assertions pg.
Proof.
  intros W h w i e. apply screenshot_position.
Qed.

Lemma screenshot_only_after_all_checks_witness :
  exists e, trace_of (exec runtime run_verification good_world) !! 16 = Some e /\
    forallb ev_ok (take 16 (trace_of (exec runtime run_verification good_world))) = true.
Proof.
  eexists. split; [vm_compute; reflexivity|].
  eapply (screenshot_only_after_all_checks World runtime good_world 16);
    vm_compute; reflexivity.
Defined.

(** ** The module's top level *)

Section ModuleTop.
Context {W : Type} (h : Handler W).

Lemma failed_import_ends_module (w : W) name i e :
  let x := exec h (module_body name) w in
  trace_of x !! i = Some e -> is_import (ev_call e) = true -> ev_ok e = false ->
  drop (S i) (trace_of x) = [] /\
  (forall exn, ev_exn e = Some exn -> result_of x = Raised exn) /\
  forallb is_import (calls (trace_of x)) = true.
Proof.
  intros x L I K; subst x. revert L. unfold module_body.
  destruct (String.eqb name "__main__");
    run_script h; intros L; pick_event L; subst e;
    try discriminate I; try discriminate K;
    (split; [reflexivity|]); (split; [|reflexivity]);
    intros exn X; cbn in X; injection X as <-; reflexivity.
Qed.

Lemma main_after_imports (w w1 w2 w3 : W) :
  h (import_module "asyncio") w = (inl tt, w1) ->
  h (import_module "playwright.sync_api") w1 = (inl tt, w2) ->
  h (import_module "os") w2 = (inl tt, w3) ->
  let x := exec h (module_body "__main__") w in
  let y := exec h run_verification w3 in
  result_of x = result_of y /\ world_of x = world_of y /\
  calls (trace_of x) = module_imports ++ calls (trace_of y).
Proof.
  intros E1 E2 E3 x y; subst x y. unfold module_body.
  rewrite String.eqb_refl. cbn [exec].
  rewrite E1. cbn [exec outcome_of]. rewrite E2. cbn [exec outcome_of].
  rewrite E3. cbn [exec outcome_of].
  destruct (exec h run_verification w3) as [[r w'] t]. cbn. auto.
Qed.

End ModuleTop.

(** X5.  The module's imports come first and gate everything else: if one
    of them raises, the module raises that exception and makes no further
    call, under any [__name__], so nothing but imports has been attempted;
    if all three return and the module runs as "__main__", its outcome and
    final world are those of [run_verification] started after the imports,
    and its calls are the three imports followed by that run's. *)
Theorem imports_gate_the_run :
  (forall (W : Type) (h : Handler W) (w : W) (name : string) i e,
      let x := exec h (module_body name) w in
      trace_of x !! i = Some e -> is_import (ev_call e) = true -> ev_ok e = false ->
      drop (S i) (trace_of x) = [] /\
      (forall exn, ev_exn e = Some exn -> result_of x = Raised exn) /\
      forallb is_import (calls (trace_of x)) = true) /\
  (forall (W : Type) (h : Handler W) (w w1 w2 w3 : W),
      h (import_module "asyncio") w = (inl tt, w1) ->
      h (import_module "playwright.sync_api") w1 = (inl tt, w2) ->
      h (import_module "os") w2 = (inl tt, w3) ->
      let x := exec h (module_body "__main__") w in
      let y := exec h run_verification w3 in
      result_of x = result_of y /\ world_of x = world_of y /\
      calls (trace_of x) = module_imports ++ calls (trace_of y)).
Proof.
  split.
  - intros W h w name i e. apply failed_import_ends_module.
  - intros W h w w1 w2 w3. apply main_after_imports.
Qed.

Lemma imports_gate_the_run_witness :
  (let x := exec (runtime_without "playwright.sync_api") (module_body "__main__")
                 good_world in
   result_of x = Raised (ImportError "playwright.sync_api") /\
   calls (trace_of x) =
     [import_module "asyncio"; import_module "playwright.sync_api"]) /\
  (let x := exec runtime (module_body "__main__") good_world in
   let y := exec runtime run_verification good_world in
   result_of x = result_of y /\ world_of x = world_of y /\
   calls (trace_of x) = module_imports ++ calls (trace_of y)).
Proof.
  destruct imports_gate_the_run as (H1 & H2).
  split.
  - intros x.
    edestruct (H1 World (runtime_without "playwright.sync_api") good_world
                 "__main__" 1) as (A & B & C);
      [vm_compute; reflexivity ..|].
    split.
    + apply B. vm_compute. reflexivity.
    + vm_compute. reflexivity.
  - apply (H2 World runtime good_world good_world good_world good_world);
      reflexivity.
Defined.

(** ** The path of the page *)

Lemma string_of_list_ascii_app a b :
  string_of_list_ascii (a ++ b) =
    (string_of_list_ascii a ++ string_of_list_ascii b)%string.
Proof.
  induction a as [|c a IH]; [reflexivity|].
  cbn [app string_of_list_ascii]. rewrite IH. reflexivity.
Qed.

Lemma ends_with_sep_split d :
  ends_with_sep d = true -> exists dir, d = (dir ++ "/")%string.
Proof.
  unfold ends_with_sep. intros H.
  destruct (rev (list_ascii_of_string d)) as [|c r] eqn:R; [discriminate H|].
  apply Ascii.eqb_eq in H. subst c.
  exists (string_of_list_ascii (rev r)).
  rewrite <- (string_of_list_ascii_of_string d).
  rewrite <- (rev_involutive (list_ascii_of_string d)), R. simpl.
  apply string_of_list_ascii_app.
Qed.

Lemma append_assoc (a b c : string) : ((a ++ b) ++ c = a ++ (b ++ c))%string.
Proof.
  induction a as [|x a IH]; [reflexivity|].
  change (String x ((a ++ b) ++ c) = String x (a ++ (b ++ c)))%string.
  rewrite IH. reflexivity.
Qed.

Lemma strip_prefix_append (p s : string) : strip_prefix p (p ++ s) = Some s.
Proof.
  induction p as [|c p IH]; [reflexivity|].
  change (strip_prefix (String c p) (String c (p ++ s)) = Some s).
  cbn [strip_prefix]. rewrite Ascii.eqb_refl. exact IH.
Qed.

(** X6.  The path the script opens is the working directory and the file
    name "index.html" with exactly one separator between them: for a
    working directory [d] that is not empty the joined path is
    [dir ++ "/index.html"] where [dir] is [d] itself or [d] without its
    final "/"; for the empty one it is the bare "index.html".  The URL is
    that path behind "file://", and taking the scheme off again gives the
    path back. *)
Theorem index_html_path_shape :
  forall d : string,
    (d = EmptyString -> os_path_join d "index.html" = "index.html") /\
    (d <> EmptyString ->
     exists dir, os_path_join d "index.html" = (dir ++ "/index.html")%string /\
                 (dir = d \/ d = (dir ++ "/")%string)) /\
    strip_prefix "file://" (file_url d) = Some (os_path_join d "index.html").
Proof.
  intros d. split; [|split].
  - intros ->. reflexivity.
  - intros N. unfold os_path_join. cbn [starts_with_sep Ascii.eqb].
    change (starts_with_sep "index.html") with false. cbv iota.
    destruct (String.eqb d EmptyString) eqn:E.
    + apply String.eqb_eq in E. contradiction.
    + cbn [orb]. destruct (ends_with_sep d) eqn:S.
      * destruct (ends_with_sep_split d S) as [dir ->].
        exists dir. split; [|right; reflexivity].
        rewrite append_assoc. reflexivity.
      * exists d. split; [reflexivity | left; reflexivity].
  - unfold file_url. apply strip_prefix_append.
Qed.

Lemma index_html_path_shape_witness :
  (exists dir, os_path_join "/home/dev/app/" "index.html" = (dir ++ "/index.html")%string /\
               (dir = "/home/dev/app/" \/ "/home/dev/app/" = (dir ++ "/")%string)) /\
  os_path_join EmptyString "index.html" = "index.html".
Proof.
  split.
  - apply (proj1 (proj2 (index_html_path_shape "/home/dev/app/"))). discriminate.
  - apply (proj1 (index_html_path_shape EmptyString)). reflexivity.
Defined.
